(** * Sorted sets of package [database]: [ZAdd], [ZScan], [getSortedSetKeyVal]

    A shallow embedding of [pkg/database/sorted_set.go].  The store
    ([embedded/store], [embedded/tbtree]), the helpers of package [common]
    and [db.Get] live outside the file; the store is taken through the
    interface the file consumes, the helpers are modelled from the
    specification and marked as such. *)

From Stdlib Require Import Strings.Byte Strings.String.
From Stdlib Require Import ZArith List Bool Lia.
Import ListNotations.

Local Open Scope Z_scope.

(* ================================================================== *)
(** ** Go values *)

(** [[]byte].  A nil slice and an empty slice are both [[]]; where the
    difference between "absent" and "present but empty" is needed (the
    [Offset] field of a request) the field is an [option bytes]. *)
Definition bytes := list byte.

(** [uint64] is a [Z] in [0, 2^64); arithmetic on it wraps. *)
Definition uint64 := Z.
Definition MaxUint64 : Z := 2 ^ 64 - 1.
Definition wrap64 (z : Z) : uint64 := z mod 2 ^ 64.

(** [int64(x)] for [x : uint64]. *)
Definition int64_of_uint64 (x : uint64) : Z :=
  if x <? 2 ^ 63 then x else x - 2 ^ 64.

(** [float64] is carried as its IEEE-754 binary64 bit pattern
    ([math.Float64bits]): bit 63 the sign, bits 62..52 the exponent,
    bits 51..0 the fraction. *)
Definition float64 := Z.

Definition f64_magnitude (f : float64) : Z := Z.land f 0x7FFFFFFFFFFFFFFF.
Definition f64_isNaN (f : float64) : bool := 0x7FF0000000000000 <? f64_magnitude f.

(** Position of a non-NaN value on the number line; the two zeros coincide. *)
Definition f64_rank (f : float64) : Z :=
  if Z.testbit f 63 then - f64_magnitude f else f64_magnitude f.

(** Go's [a < b] and [a > b] on [float64]: false as soon as one side is NaN. *)
Definition f64_lt (a b : float64) : bool :=
  negb (f64_isNaN a) && negb (f64_isNaN b) && (f64_rank a <? f64_rank b).
Definition f64_gt (a b : float64) : bool := f64_lt b a.

Definition byte_of_Z (z : Z) : byte :=
  match Byte.of_N (Z.to_N (z mod 256)) with
  | Some b => b
  | None => x00
  end.
Definition Z_of_byte (b : byte) : Z := Z.of_N (Byte.to_N b).

(** [binary.BigEndian.PutUint64] and friends, for any width [n] in bytes. *)
Fixpoint be_encode (n : nat) (z : Z) : bytes :=
  match n with
  | O => []
  | S m => byte_of_Z (Z.shiftr z (8 * Z.of_nat m)) :: be_encode m z
  end.

Definition be_decode (b : bytes) : Z :=
  fold_left (fun acc x => Z.lor (Z.shiftl acc 8) (Z_of_byte x)) b 0.

(** [bytes.Compare]. *)
Fixpoint Compare (a b : bytes) : comparison :=
  match a, b with
  | [], [] => Eq
  | [], _ :: _ => Lt
  | _ :: _, [] => Gt
  | x :: a', y :: b' =>
      match Z.compare (Z_of_byte x) (Z_of_byte y) with
      | Eq => Compare a' b'
      | c => c
      end
  end.

Definition bytes_leb (a b : bytes) : bool :=
  match Compare a b with Gt => false | _ => true end.

(** [bytes.HasPrefix]. *)
Fixpoint HasPrefix (s pre : bytes) : bool :=
  match pre, s with
  | [], _ => true
  | _ :: _, [] => false
  | y :: pre', x :: s' => Byte.eqb x y && HasPrefix s' pre'
  end.

(** [make([]byte, n)]. *)
Definition make (n : Z) : bytes := repeat x00 (Z.to_nat n).

(** [copy(dst[:], src)] into a zeroed array of [n] bytes. *)
Definition copy_into (n : nat) (src : bytes) : bytes :=
  firstn n (src ++ repeat x00 n).

(* ================================================================== *)
(** ** Errors and outcomes *)

(** Go [error] values.  The two sentinels the file names, any other
    error value a collaborator returns (told apart by its text), and the
    value [fmt.Errorf] builds from a format, an error and a string. *)
Inductive error : Type :=
| ErrNoMoreEntries                                  (* tbtree.ErrNoMoreEntries *)
| ErrIndexKeyMismatch                               (* database.ErrIndexKeyMismatch *)
| ErrOther (text : string)
| Errorf (format : string) (e : error) (s : string).

Definition is_ErrNoMoreEntries (e : error) : bool :=
  match e with ErrNoMoreEntries => true | _ => false end.

(** What a collaborator's call returns: [(v, nil)] or [(_, err)]. *)
Inductive result (A : Type) : Type :=
| OK (a : A)
| Fail (e : error).
Arguments OK {A} a.
Arguments Fail {A} e.

(** What a function of this file does: return a value, return an error,
    or panic (nil dereference, slice bounds). *)
Inductive outcome (A : Type) : Type :=
| Ret (a : A)
| Err (e : error)
| Panic.
Arguments Ret {A} a.
Arguments Err {A} e.
Arguments Panic {A}.

Definition bind {A B : Type} (m : outcome A) (k : A -> outcome B) : outcome B :=
  match m with
  | Ret a => k a
  | Err e => Err e
  | Panic => Panic
  end.

(** [v, err := f(); if err != nil { return nil, err }]. *)
Definition try {A : Type} (r : result A) : outcome A :=
  match r with
  | OK a => Ret a
  | Fail e => Err e
  end.

Notation "x <- m ;; k" := (bind m (fun x => k))
  (at level 61, m at next level, right associativity).

(* ================================================================== *)
(** ** Messages of package [schema] and [store.KV] *)

(** [store.KV]. *)
Record KV : Type := mkKV { kvKey : bytes; kvValue : bytes }.

(** [schema.ZAddOptions].  [Score] is a [*schema.Score] and [Index] a
    [*schema.Index]: [None] is the nil pointer. *)
Record ZAddOptions : Type := mkZAddOptions {
  zaSet : bytes;
  zaScore : option float64;
  zaKey : bytes;
  zaIndex : option uint64
}.

(** [schema.ZScanOptions].  [Offset] is [None] when the field is absent
    (nil slice) and [Some []] when it is present with length zero; [Min]
    and [Max] are [*schema.Score]. *)
Record ZScanOptions : Type := mkZScanOptions {
  zsSet : bytes;
  zsOffset : option bytes;
  zsLimit : uint64;
  zsReverse : bool;
  zsMin : option float64;
  zsMax : option float64
}.

(** [schema.Item]. *)
Record Item : Type := mkItem { itKey : bytes; itValue : bytes; itIndex : uint64 }.

(** [schema.ZItem]. *)
Record ZItem : Type := mkZItem {
  ziItem : Item;
  ziScore : float64;
  ziCurrentOffset : bytes;
  ziIndex : uint64
}.

(** [schema.ZItemList]: a slice of [*schema.ZItem]; [None] is a nil pointer
    stored in the slice. *)
Record ZItemList : Type := mkZItemList { Items : list (option ZItem) }.

(** [schema.Root] with its [schema.RootIndex] payload. *)
Record Root : Type := mkRoot { rootIndex : uint64; rootRoot : bytes }.

(** [len(options.Offset)]. *)
Definition len_opt (o : option bytes) : Z :=
  match o with
  | Some b => Z.of_nat (length b)
  | None => 0
  end.

(** The slice an [Offset] field denotes when it is assigned to a variable. *)
Definition slice_of (o : option bytes) : bytes :=
  match o with
  | Some b => b
  | None => []
  end.

(* ================================================================== *)
(** ** The collaborators *)

(** [tbtree.ReaderSpec]. *)
Record ReaderSpec : Type := mkReaderSpec {
  IsPrefix : bool;
  InitialKey : bytes;
  AscOrder : bool
}.

(** The results of the successive calls of [reader.Read()] on one reader:
    a key, the encoded value pointer and the entry's index, or an error.
    Once the list is used up [Read()] returns [tbtree.ErrNoMoreEntries]. *)
Definition reads := list (result (bytes * bytes * uint64)).

(** The store as [sorted_set.go] consumes it: [d.st] with its [Commit],
    [ReadTx], [ReadValue], [ReadValueAt] and [Snapshot], the snapshot's
    [Reader], and [d.Get] of package [database].  [Tx] is the type of the
    scratch transaction [d.tx]: every [ReadValue] of the file reads it
    right after a [ReadTx] that filled it, so it is handed on as a value.
    [ReadValueAt] receives the buffer and gives back its contents after
    the call together with the error. *)
Record Store : Type := mkStore {
  St : Type;
  Tx : Type;
  Snap : Type;
  Commit : St -> list KV -> St * result (uint64 * Z * bytes);
  ReadTx : St -> uint64 -> result Tx;
  ReadValue : St -> Tx -> bytes -> result bytes;
  ReadValueAt : St -> bytes -> Z -> bytes -> bytes * option error;
  Snapshot : St -> result Snap;
  Reader : Snap -> ReaderSpec -> result reads;
  Get : St -> bytes -> result Item
}.

(* ================================================================== *)
(** ** Package [common] *)

Section Common.

(** [common.SortedSetSeparator]; its bytes are declared outside the file. *)
Variable SortedSetSeparator : bytes.

(** Modelled from the spec: the score codec of package [common] (section
    4.1): the bit pattern with the sign bit flipped for a non-negative
    score and all bits inverted for a negative one, big-endian on 8 bytes. *)
Definition encodeScore (score : float64) : bytes :=
  be_encode 8 (if Z.testbit score 63
               then Z.lxor score 0xFFFFFFFFFFFFFFFF
               else Z.lxor score 0x8000000000000000).

(** Modelled from the spec: the inverse of [encodeScore]. *)
Definition decodeScore (b : bytes) : float64 :=
  let u := be_decode (firstn 8 b) in
  if Z.testbit u 63
  then Z.lxor u 0x8000000000000000
  else Z.lxor u 0xFFFFFFFFFFFFFFFF.

(** Modelled from the spec: [common.WrapSeparatorToSet], the spec's
    [prefixForSet]: separator, then the set name. *)
Definition WrapSeparatorToSet (set : bytes) : bytes :=
  SortedSetSeparator ++ set.

(** Modelled from the spec: [common.AppendScoreToSet], the spec's
    [prefixForSetAndScore]: separator, set name, encoded score. *)
Definition AppendScoreToSet (set : bytes) (score : float64) : bytes :=
  SortedSetSeparator ++ set ++ encodeScore score.

(** Modelled from the spec: [common.BuildSetKey] (section 4.2): separator,
    set, encoded score, member key and, when pinned, the transaction id on
    8 bytes big-endian. *)
Definition BuildSetKey (key set : bytes) (score : float64) (index : option uint64) : bytes :=
  SortedSetSeparator ++ set ++ encodeScore score ++ key ++
  match index with
  | Some id => be_encode 8 id
  | None => []
  end.

(** Modelled from the spec: [common.SetKeyScore], the spec's [scoreOf]: the
    fixed-width score field after separator and set. *)
Definition SetKeyScore (key set : bytes) : float64 :=
  decodeScore (skipn (length SortedSetSeparator + length set) key).

(** Modelled from the spec: [common.WrapIndexReference] (section 4.3): the
    member key's length on 8 bytes, its bytes, a flag byte (0 unpinned,
    1 pinned) and, when pinned, the transaction id on 8 bytes. *)
Definition WrapIndexReference (key : bytes) (index : option uint64) : bytes :=
  be_encode 8 (Z.of_nat (length key)) ++ key ++
  match index with
  | Some id => x01 :: be_encode 8 id
  | None => [x00]
  end.

(** Modelled from the spec: [common.UnwrapIndexReference], the inverse:
    member key, flag and pinned index (0 when the flag is not 1). *)
Definition UnwrapIndexReference (reference : bytes) : bytes * byte * uint64 :=
  let n := Z.to_nat (be_decode (firstn 8 reference)) in
  let rest := skipn 8 reference in
  let key := firstn n rest in
  let flag := hd x00 (skipn n rest) in
  let idx := if Byte.eqb flag x01 then be_decode (firstn 8 (skipn (S n) rest)) else 0 in
  (key, flag, idx).

End Common.

(* ================================================================== *)
(** ** [sorted_set.go] *)

Section Database.

Variable SortedSetSeparator : bytes.
Variable S : Store.

(** [binary.BigEndian.Uint32(b)]: panics when [b] has fewer than 4 bytes. *)
Definition Uint32 (b : bytes) : outcome Z :=
  if (length b <? 4)%nat then Panic else Ret (be_decode (firstn 4 b)).

(** [binary.BigEndian.Uint64(b)]: panics when [b] has fewer than 8 bytes. *)
Definition Uint64 (b : bytes) : outcome Z :=
  if (length b <? 8)%nat then Panic else Ret (be_decode (firstn 8 b)).

(** [b[n:]]: panics when [n] exceeds the length. *)
Definition slice_from (n : nat) (b : bytes) : outcome bytes :=
  if (length b <? n)%nat then Panic else Ret (skipn n b).

(** [p.Score] through a pointer [p]: panics on nil. *)
Definition deref {A : Type} (p : option A) : outcome A :=
  match p with
  | Some a => Ret a
  | None => Panic
  end.

(** [getSortedSetKeyVal] (lines 174-213): key and value of a sorted set
    entry, after the check that the member key exists. *)
Definition getSortedSetKeyVal (d : St S) (zaddOpts : ZAddOptions)
    (skipPersistenceCheck : bool) : outcome (bytes * bytes) :=
  ki <- match zaIndex zaddOpts with
        | Some idx =>
            key <- (if negb skipPersistenceCheck then
                      tx <- try (ReadTx S d idx) ;;
                      match ReadValue S d tx (zaKey zaddOpts) with
                      | Fail _ => Err ErrIndexKeyMismatch
                      | OK _ => Ret (zaKey zaddOpts)
                      end
                    else Ret (zaKey zaddOpts)) ;;
            Ret (key, Some idx)
        | None =>
            i <- try (Get S d (zaKey zaddOpts)) ;;
            match Compare (itKey i) (zaKey zaddOpts) with
            | Eq => Ret (zaKey zaddOpts, None)
            | _ => Err ErrIndexKeyMismatch
            end
        end ;;
  let '(key, index) := ki in
  score <- deref (zaScore zaddOpts) ;;
  let ik := BuildSetKey SortedSetSeparator key (zaSet zaddOpts) score index in
  let referenceValue := WrapIndexReference key index in
  Ret (ik, referenceValue).

(** [ZAdd] (lines 19-37).  The second component is the store after the call. *)
Definition ZAdd (d : St S) (zaddOpts : ZAddOptions) : outcome Root * St S :=
  match getSortedSetKeyVal d zaddOpts false with
  | Ret (ik, referenceValue) =>
      match Commit S d [mkKV ik referenceValue] with
      | (d', OK (id, _, alh)) => (Ret (mkRoot id alh), d')
      | (d', Fail err) =>
          (Err (Errorf "unexpected error %v during %s" err "Reference"), d')
      end
  | Err e => (Err e, d)
  | Panic => (Panic, d)
  end.

(** Lines 49-64 of [ZScan]: the key the reader starts from. *)
Definition ZScan_offsetKey (options : ZScanOptions) : bytes :=
  let set := WrapSeparatorToSet SortedSetSeparator (zsSet options) in
  let offsetKey := set in
  let offsetKey :=
    match zsMin options with
    | Some min =>
        if negb (zsReverse options)
        then AppendScoreToSet SortedSetSeparator (zsSet options) min
        else offsetKey
    | None => offsetKey
    end in
  let offsetKey :=
    match zsMax options with
    | Some max =>
        if zsReverse options
        then AppendScoreToSet SortedSetSeparator (zsSet options) max
        else offsetKey
    | None => offsetKey
    end in
  if 0 <? len_opt (zsOffset options) then slice_of (zsOffset options) else offsetKey.

(** Lines 72-75: the reader specification. *)
Definition ZScan_readerSpec (options : ZScanOptions) (offsetKey : bytes) : ReaderSpec :=
  {| IsPrefix := true; InitialKey := offsetKey; AscOrder := zsReverse options |}.

(** Lines 84-88: the effective limit. *)
Definition ZScan_limit (options : ZScanOptions) : uint64 :=
  if zsLimit options =? 0 then MaxUint64 else zsLimit options.

(** Lines 111-133: the reference lookup of an entry whose key carries the
    separator. *)
Definition ZScan_resolve (d : St S) (refVal : bytes) : outcome Item :=
  let '(refKey, flag, refIndex) := UnwrapIndexReference refVal in
  if Byte.eqb flag x01 then
    tx <- try (ReadTx S d refIndex) ;;
    val <- try (ReadValue S d tx refKey) ;;
    Ret (mkItem refKey val refIndex)
  else
    try (Get S d refKey).

(** Lines 99-150: one turn of the loop on the entry [Read()] returned.
    [Ret None] is [continue]; [Ret (Some zitem)] reaches line 152 with
    [zitem], which is [None] when the pointer is nil. *)
Definition ZScan_entry (d : St S) (options : ZScanOptions)
    (sortedSetItemKey btreeVal : bytes) (sortedSetItemIndex : uint64)
    : outcome (option (option ZItem)) :=
  valLen <- Uint32 btreeVal ;;
  tail4 <- slice_from 4 btreeVal ;;
  vOff <- Uint64 tail4 ;;
  tail12 <- slice_from 12 btreeVal ;;
  let hVal := copy_into 32 tail12 in
  (* line 106: the error is assigned to err and not looked at again *)
  let '(refVal, _) := ReadValueAt S d (make valLen) (int64_of_uint64 vOff) hVal in
  item <- (if HasPrefix sortedSetItemKey SortedSetSeparator
           then it <- ZScan_resolve d refVal ;; Ret (Some it)
           else Ret None) ;;
  let zitem :=
    match item with
    | Some it =>
        Some (mkZItem it (SetKeyScore SortedSetSeparator sortedSetItemKey (zsSet options))
                      sortedSetItemKey sortedSetItemIndex)
    | None => None
    end in
  belowMin <- match zsMin options with
              | Some min => z <- deref zitem ;; Ret (f64_lt (ziScore z) min)
              | None => Ret false
              end ;;
  if belowMin : bool then Ret None else
  aboveMax <- match zsMax options with
              | Some max => z <- deref zitem ;; Ret (f64_gt (ziScore z) max)
              | None => Ret false
              end ;;
  if aboveMax : bool then Ret None else
  Ret (Some zitem).

(** Lines 90-156: the loop, on the results [Read()] has still to give. *)
Fixpoint ZScan_loop (d : St S) (options : ZScanOptions) (limit : uint64)
    (reader : reads) (items : list (option ZItem)) (i : uint64)
    : outcome (list (option ZItem)) :=
  match reader with
  | [] => Ret items
  | Fail err :: rest =>
      if is_ErrNoMoreEntries err then Ret items else Err err
  | OK (sortedSetItemKey, btreeVal, sortedSetItemIndex) :: rest =>
      step <- ZScan_entry d options sortedSetItemKey btreeVal sortedSetItemIndex ;;
      match step with
      | None => ZScan_loop d options limit rest items i
      | Some zitem =>
          let items := items ++ [zitem] in
          let i := wrap64 (i + 1) in
          if i =? limit then Ret items
          else ZScan_loop d options limit rest items i
      end
  end.

(** Lines 66-162: [ZScan] once the start key is known. *)
Definition ZScan_from (d : St S) (options : ZScanOptions) (offsetKey : bytes)
    : outcome ZItemList :=
  snapshot <- try (Snapshot S d) ;;
  reader <- try (Reader S snapshot (ZScan_readerSpec options offsetKey)) ;;
  items <- ZScan_loop d options (ZScan_limit options) reader [] 0 ;;
  Ret (mkZItemList items).

(** [ZScan] (lines 40-163). *)
Definition ZScan (d : St S) (options : ZScanOptions) : outcome ZItemList :=
  ZScan_from d options (ZScan_offsetKey options).

End Database.

(* ================================================================== *)
(** ** An in-memory store *)

Module MemStore.

Section Mem.

(** [sha256.Sum256]; the store only needs it to be a function. *)
Variable Sum256 : bytes -> bytes.

Definition ErrKeyNotFound : error := ErrOther "key not found".
Definition ErrTxNotFound : error := ErrOther "tx not found".
Definition ErrCorruptedData : error := ErrOther "data is corrupted".
Definition ErrOutOfRange : error := ErrOther "read out of range".

(** Modelled from the spec: the state of the append-only store (section 6):
    the value log, the committed transactions (oldest first, the id of a
    transaction is its position counted from 1), the ordered index from key
    to encoded value pointer and entry index, and the accumulator hash. *)
Record state : Type := mkState {
  vlog : bytes;
  txs : list (list KV);
  index : list (bytes * bytes * uint64);
  alh : bytes
}.

Definition empty : state := mkState [] [] [] (repeat x00 32).

(** The value pointer as [ZScan] decodes it: length on 4 bytes, offset on
    8 bytes, content hash on 32 bytes. *)
Definition pointer (value : bytes) (off : Z) : bytes :=
  be_encode 4 (Z.of_nat (length value)) ++ be_encode 8 off ++ copy_into 32 (Sum256 value).

Fixpoint index_put (k ptr : bytes) (ts : uint64) (ix : list (bytes * bytes * uint64))
    : list (bytes * bytes * uint64) :=
  match ix with
  | [] => [(k, ptr, ts)]
  | (k', ptr', ts') :: ix' =>
      match Compare k k' with
      | Lt => (k, ptr, ts) :: ix
      | Eq => (k, ptr, ts) :: ix'
      | Gt => (k', ptr', ts') :: index_put k ptr ts ix'
      end
  end.

(** Modelled from the spec: [commit]: the values are appended to the log,
    the index is updated, the transaction gets the next id. *)
Definition commit (d : state) (kvs : list KV) : state * result (uint64 * Z * bytes) :=
  let id := Z.of_nat (length (txs d)) + 1 in
  let '(log', ix') :=
    fold_left (fun (acc : bytes * list (bytes * bytes * uint64)) kv =>
                 let '(log, ix) := acc in
                 (log ++ kvValue kv,
                  index_put (kvKey kv) (pointer (kvValue kv) (Z.of_nat (length log))) id ix))
              kvs (vlog d, index d) in
  let alh' := copy_into 32 (Sum256 (alh d ++ be_encode 8 id ++
                flat_map (fun kv => kvKey kv ++ kvValue kv) kvs)) in
  (mkState log' (txs d ++ [kvs]) ix' alh', OK (id, 0, alh')).

(** Modelled from the spec: [readTransaction]: the write set of a
    committed transaction. *)
Definition readTx (d : state) (id : uint64) : result (list KV) :=
  if id <=? 0 then Fail ErrTxNotFound else
  match nth_error (txs d) (Z.to_nat (id - 1)) with
  | Some tx => OK tx
  | None => Fail ErrTxNotFound
  end.

(** Modelled from the spec: [readValue]: fails if the key is absent from
    the transaction. *)
Definition readValue (d : state) (tx : list KV) (key : bytes) : result bytes :=
  match find (fun kv => match Compare (kvKey kv) key with Eq => true | _ => false end) tx with
  | Some kv => OK (kvValue kv)
  | None => Fail ErrKeyNotFound
  end.

(** Modelled from the spec: [readValueAt]: random access with integrity
    check.  The bytes read are left in the buffer also when the hash does
    not match. *)
Definition readValueAt (d : state) (buf : bytes) (off : Z) (hVal : bytes)
    : bytes * option error :=
  if (off <? 0) || (Z.of_nat (length (vlog d)) <? off + Z.of_nat (length buf))
  then (buf, Some ErrOutOfRange)
  else
    let b := firstn (length buf) (skipn (Z.to_nat off) (vlog d)) in
    match Compare (copy_into 32 (Sum256 b)) hVal with
    | Eq => (b, None)
    | _ => (b, Some ErrCorruptedData)
    end.

(** Modelled from the spec: [readCurrentValue], which [d.Get] stands for:
    the item last written under the key. *)
Definition get (d : state) (key : bytes) : result Item :=
  match find (fun e => match Compare (fst (fst e)) key with Eq => true | _ => false end)
             (index d) with
  | None => Fail ErrKeyNotFound
  | Some (k, ptr, ts) =>
      let n := be_decode (firstn 4 ptr) in
      let off := be_decode (firstn 8 (skipn 4 ptr)) in
      match readValueAt d (make n) off (skipn 12 ptr) with
      | (v, None) => OK (mkItem k v ts)
      | (_, Some e) => Fail e
      end
  end.

(** Modelled from the spec: [snapshot]: the index as it is at that moment. *)
Definition snapshot (d : state) : result (list (bytes * bytes * uint64)) :=
  OK (index d).

(** Modelled from the spec: the ordered reader of a snapshot (sections 4.5
    and 6), "prefix-bounded iteration from the start position in the
    requested direction": with [IsPrefix] only the entries whose key
    carries [InitialKey] as a prefix; with [AscOrder] the keys from
    [InitialKey] upwards in ascending order, without it the keys from
    [InitialKey] downwards in descending order. *)
Definition reader (snap : list (bytes * bytes * uint64)) (spec : ReaderSpec)
    : result reads :=
  let inRange (e : bytes * bytes * uint64) :=
    if AscOrder spec
    then bytes_leb (InitialKey spec) (fst (fst e))
    else bytes_leb (fst (fst e)) (InitialKey spec) in
  let inPrefix (e : bytes * bytes * uint64) :=
    if IsPrefix spec then HasPrefix (fst (fst e)) (InitialKey spec) else true in
  let es := filter (fun e => inRange e && inPrefix e) snap in
  OK (map OK (if AscOrder spec then es else rev es)).

(** Overwrites the log from offset [off] on with [b]: stored bytes
    corrupted behind the store's back. *)
Definition corrupt (d : state) (off : nat) (b : bytes) : state :=
  mkState (firstn off (vlog d) ++ b ++ skipn (off + length b) (vlog d))
          (txs d) (index d) (alh d).

Definition store : Store :=
  {| St := state;
     Tx := list KV;
     Snap := list (bytes * bytes * uint64);
     Commit := commit;
     ReadTx := readTx;
     ReadValue := readValue;
     ReadValueAt := readValueAt;
     Snapshot := snapshot;
     Reader := reader;
     Get := get |}.

End Mem.

End MemStore.

(* ================================================================== *)
(** ** The specification's wording of two steps of [ZScan] *)

Section SpecWording.

Variable SortedSetSeparator : bytes.
Variable S : Store.

(** The start position as section 4.5 words it, first match wins: a
    supplied (non-empty) cursor; else ascending with [min]; else descending
    with [max]; else the bare set prefix. *)
Definition startPosition (options : ZScanOptions) : bytes :=
  match zsOffset options with
  | Some (x :: cursor) => x :: cursor
  | _ =>
      match zsReverse options, zsMin options, zsMax options with
      | false, Some min, _ => AppendScoreToSet SortedSetSeparator (zsSet options) min
      | true, _, Some max => AppendScoreToSet SortedSetSeparator (zsSet options) max
      | _, _, _ => WrapSeparatorToSet SortedSetSeparator (zsSet options)
      end
  end.

(** What one result of [Read()] contributes to the result list when the
    scan goes through it: the item the loop body hands to [append]. *)
Definition emitted (d : St S) (options : ZScanOptions)
    (x : result (bytes * bytes * uint64)) : list (option ZItem) :=
  match x with
  | OK (k, v, i) =>
      match ZScan_entry SortedSetSeparator S d options k v i with
      | Ret (Some zitem) => [zitem]
      | _ => []
      end
  | Fail _ => []
  end.

(** A result of [Read()] that is an entry on which the loop body neither
    returns an error nor panics. *)
Definition passes (d : St S) (options : ZScanOptions)
    (x : result (bytes * bytes * uint64)) : Prop :=
  exists k v i step,
    x = OK (k, v, i) /\ ZScan_entry SortedSetSeparator S d options k v i = Ret step.

End SpecWording.

(** [l1] is [l2] with some elements left out, the order kept. *)
Inductive subsequence {A : Type} : list A -> list A -> Prop :=
| subsequence_nil : subsequence [] []
| subsequence_skip (x : A) (l1 l2 : list A) :
    subsequence l1 l2 -> subsequence l1 (x :: l2)
| subsequence_keep (x : A) (l1 l2 : list A) :
    subsequence l1 l2 -> subsequence (x :: l1) (x :: l2).

(** The keys of the entries a reader gives, in the order it gives them. *)
Definition read_keys (r : reads) : list bytes :=
  flat_map (fun x => match x with OK (k, _, _) => [k] | Fail _ => [] end) r.

(** The composite keys ([CurrentOffset]) of the items of a result that
    are not nil. *)
Definition item_keys (items : list (option ZItem)) : list bytes :=
  flat_map (fun zitem => match zitem with
                         | Some z => [ziCurrentOffset z]
                         | None => []
                         end) items.

(** The store [S] with the error of [ReadValueAt] taken away: the buffer
    is filled as [S] fills it, the call reports success. *)
Definition without_read_error (S : Store) : Store :=
  {| St := St S;
     Tx := Tx S;
     Snap := Snap S;
     Commit := Commit S;
     ReadTx := ReadTx S;
     ReadValue := ReadValue S;
     ReadValueAt := fun d buf off hVal => (fst (ReadValueAt S d buf off hVal), None);
     Snapshot := Snapshot S;
     Reader := Reader S;
     Get := Get S |}.

(* ================================================================== *)
(** ** A scenario: three members of one set *)

Module Scenario.

(** A stand-in for SHA-256 in the scenario: a polynomial checksum on 32
    bytes.  All that is asked of it is to tell the byte strings of the
    scenario apart. *)
Definition checksum (b : bytes) : bytes :=
  be_encode 32 (fold_left (fun h x => (h * 257 + Z_of_byte x + 1) mod 2 ^ 256) b 0).

(** The separator of the scenario. *)
Definition separator : bytes := list_byte_of_string "_~|IMMU|~_".

Definition st : Store := MemStore.store checksum.

Definition b (s : string) : bytes := list_byte_of_string s.

(** 1.0, 1.5, 2.0, 2.5 and 3.0 as bit patterns. *)
Definition f1_0 : float64 := 0x3FF0000000000000.
Definition f1_5 : float64 := 0x3FF8000000000000.
Definition f2_0 : float64 := 0x4000000000000000.
Definition f2_5 : float64 := 0x4004000000000000.
Definition f3_0 : float64 := 0x4008000000000000.

(** The store after three plain writes: key1, key2, key3. *)
Definition d0 : MemStore.state :=
  let d := MemStore.empty in
  let d := fst (MemStore.commit checksum d [mkKV (b "key1") (b "val1")]) in
  let d := fst (MemStore.commit checksum d [mkKV (b "key2") (b "val2")]) in
  fst (MemStore.commit checksum d [mkKV (b "key3") (b "val3")]).

Definition zadd (score : float64) (key : string) : ZAddOptions :=
  mkZAddOptions (b "set1") (Some score) (b key) None.

(** Scores 3.0, 1.0, 2.0 added to the same set under distinct member keys. *)
Definition d3 : MemStore.state :=
  let d := snd (ZAdd separator st d0 (zadd f3_0 "key1")) in
  let d := snd (ZAdd separator st d (zadd f1_0 "key2")) in
  snd (ZAdd separator st d (zadd f2_0 "key3")).

Definition zscan (reverse : bool) (min max : option float64) : ZScanOptions :=
  mkZScanOptions (b "set1") None 0 reverse min max.

(** The scores of a result, [None] for a nil entry. *)
Definition scores (r : outcome ZItemList) : outcome (list (option float64)) :=
  l <- r ;; Ret (map (option_map ziScore) (Items l)).

(** Member key and value of the items of a result. *)
Definition members (r : outcome ZItemList) : outcome (list (option (string * string))) :=
  l <- r ;;
  Ret (map (option_map (fun z => (string_of_list_byte (itKey (ziItem z)),
                                  string_of_list_byte (itValue (ziItem z)))))
           (Items l)).

(** The reference stored for the 3.0 entry sits at offset 12 of the log,
    13 bytes long: length, "key1", flag.  Byte 23 is the last byte of the
    member key; it is overwritten so that the reference reads "key2". *)
Definition d3_corrupt : MemStore.state := MemStore.corrupt d3 23 (b "2").

(** The value pointer of the 3.0 entry. *)
Definition pointer_3_0 : bytes :=
  MemStore.pointer checksum (WrapIndexReference (b "key1") None) 12.

(** The same store, with a commit that always fails. *)
Definition diskFull : error := ErrOther "disk full".
Definition st_commit_fails : Store :=
  {| St := MemStore.state;
     Tx := list KV;
     Snap := list (bytes * bytes * uint64);
     Commit := fun d _ => (d, Fail diskFull);
     ReadTx := MemStore.readTx;
     ReadValue := MemStore.readValue;
     ReadValueAt := MemStore.readValueAt checksum;
     Snapshot := MemStore.snapshot;
     Reader := MemStore.reader;
     Get := MemStore.get checksum |}.

(** A store whose lookup answers with the first key that begins with the
    key asked for. *)
Definition st_prefix_lookup : Store :=
  {| St := MemStore.state;
     Tx := list KV;
     Snap := list (bytes * bytes * uint64);
     Commit := MemStore.commit checksum;
     ReadTx := MemStore.readTx;
     ReadValue := MemStore.readValue;
     ReadValueAt := MemStore.readValueAt checksum;
     Snapshot := MemStore.snapshot;
     Reader := MemStore.reader;
     Get := fun d key =>
              match find (fun e => HasPrefix (fst (fst e)) key) (MemStore.index d) with
              | Some (k, _, _) => MemStore.get checksum d k
              | None => Fail MemStore.ErrKeyNotFound
              end |}.

Definition zadd_pinned (score : float64) (key : string) (id : uint64) : ZAddOptions :=
  mkZAddOptions (b "set1") (Some score) (b key) (Some id).

(** Key and value of the entry for key1 with score 3.0, unpinned and
    pinned to transaction 1. *)
Definition ik_3_0 : bytes := BuildSetKey separator (b "key1") (b "set1") f3_0 None.
Definition ref_key1 : bytes := WrapIndexReference (b "key1") None.
Definition ik_3_0_pinned : bytes := BuildSetKey separator (b "key1") (b "set1") f3_0 (Some 1).
Definition ref_key1_pinned : bytes := WrapIndexReference (b "key1") (Some 1).

(** The store after that entry is committed on top of [d0]. *)
Definition d1 : MemStore.state := fst (MemStore.commit checksum d0 [mkKV ik_3_0 ref_key1]).
Definition d1_pinned : MemStore.state :=
  fst (MemStore.commit checksum d0 [mkKV ik_3_0_pinned ref_key1_pinned]).

(** A scan of the set in the scenario with a limit. *)
Definition zscan_limit (limit : uint64) : ZScanOptions :=
  mkZScanOptions (b "set1") None limit true None None.

(** A scan that starts from a cursor made of the beginning of the plain keys. *)
Definition zscan_plain (min max : option float64) : ZScanOptions :=
  mkZScanOptions (b "set1") (Some (b "key")) 0 true min max.

(** What the reader of the scenario gives for the bare set prefix,
    ascending: the three entries of the set. *)
Definition reads3 : reads :=
  match MemStore.reader (MemStore.index d3)
          (mkReaderSpec true (WrapSeparatorToSet separator (b "set1")) true) with
  | OK r => r
  | Fail _ => []
  end.

(** The [n]-th of these entries. *)
Definition entry3 (n : nat) : bytes * bytes * uint64 :=
  match nth n reads3 (Fail ErrNoMoreEntries) with
  | OK e => e
  | Fail _ => ([], [], 0)
  end.

(** The item the loop makes of the [n]-th of these entries. *)
Definition zitem3 (n : nat) : option ZItem :=
  hd None (emitted separator st d3 (zscan_limit 0) (nth n reads3 (Fail ErrNoMoreEntries))).

End Scenario.

(* ================================================================== *)
(** ** Further stores for the scenario *)

Module Scenario2.

Import Scenario.

Definition ioError : error := ErrOther "i/o error".

(** The store of the scenario with a reader that gives its first entry
    and then fails. *)
Definition st_reader_breaks : Store :=
  {| St := MemStore.state;
     Tx := list KV;
     Snap := list (bytes * bytes * uint64);
     Commit := MemStore.commit checksum;
     ReadTx := MemStore.readTx;
     ReadValue := MemStore.readValue;
     ReadValueAt := MemStore.readValueAt checksum;
     Snapshot := MemStore.snapshot;
     Reader := fun snap spec =>
                 match MemStore.reader snap spec with
                 | OK r => OK (firstn 1 r ++ Fail ioError :: skipn 1 r)
                 | Fail e => Fail e
                 end;
     Get := MemStore.get checksum |}.

(** An entry for key1 with score 2.5 pinned to transaction 99, which does
    not exist: built with the persistence check skipped, then committed on
    top of the three entries. *)
Definition zadd_dangling : ZAddOptions := zadd_pinned f2_5 "key1" 99.
Definition ik_dangling : bytes := BuildSetKey separator (b "key1") (b "set1") f2_5 (Some 99).
Definition ref_dangling : bytes := WrapIndexReference (b "key1") (Some 99).
Definition d_dangling : MemStore.state :=
  fst (MemStore.commit checksum d3 [mkKV ik_dangling ref_dangling]).

(** What the reader gives on that store for the bare set prefix,
    ascending, and the [n]-th of these entries. *)
Definition reads4 : reads :=
  match MemStore.reader (MemStore.index d_dangling)
          (mkReaderSpec true (WrapSeparatorToSet separator (b "set1")) true) with
  | OK r => r
  | Fail _ => []
  end.
Definition entry4 (n : nat) : bytes * bytes * uint64 :=
  match nth n reads4 (Fail ErrNoMoreEntries) with
  | OK e => e
  | Fail _ => ([], [], 0)
  end.

(** A value pointer cut short: 11 bytes. *)
Definition short_pointer : bytes := firstn 11 pointer_3_0.

(** The value pointer of the pinned entry of [d1_pinned]. *)
Definition pointer_pinned : bytes := MemStore.pointer checksum ref_key1_pinned 12.

(** A scan of the set with both bounds at 3.0. *)
Definition zscan_at_3_0 : ZScanOptions :=
  mkZScanOptions (b "set1") None 0 true (Some f3_0) (Some f3_0).

(** A quiet NaN. *)
Definition fNaN : float64 := 0x7FF8000000000000.

(** A composite key whose score field holds that NaN. *)
Definition ik_nan : bytes := BuildSetKey separator (b "key1") (b "set1") fNaN None.

(** What the reader gives for the cursor made of the beginning of the
    plain keys, and the first of these entries. *)
Definition reads_plain : reads :=
  match MemStore.reader (MemStore.index d3) (mkReaderSpec true (b "key") true) with
  | OK r => r
  | Fail _ => []
  end.
Definition entry_plain : bytes * bytes * uint64 :=
  match nth 0 reads_plain (Fail ErrNoMoreEntries) with
  | OK e => e
  | Fail _ => ([], [], 0)
  end.

(** A descending-flagged scan of the set with min 1.0 and max 2.0, and
    what it returns. *)
Definition zscan_bounded : ZScanOptions := zscan true (Some f1_0) (Some f2_0).
Definition result_bounded : ZItemList :=
  match ZScan separator st d3 zscan_bounded with
  | Ret l => l
  | _ => mkZItemList []
  end.

(** What the scan of the set without bounds returns. *)
Definition result_all : ZItemList :=
  match ZScan separator st d3 (zscan true None None) with
  | Ret l => l
  | _ => mkZItemList []
  end.

End Scenario2.

(* ================================================================== *)
(** * Properties *)

(** ** Bytes and big-endian numbers *)

Lemma Z_of_byte_range (x : byte) : 0 <= Z_of_byte x < 256.
Proof.
  unfold Z_of_byte. pose proof (Byte.to_N_bounded x). lia.
Qed.

Lemma Z_of_byte_of_Z (z : Z) : Z_of_byte (byte_of_Z z) = z mod 256.
Proof.
  unfold Z_of_byte, byte_of_Z.
  assert (Hr : 0 <= z mod 256 < 256) by (apply Z.mod_pos_bound; lia).
  destruct (Byte.of_N (Z.to_N (z mod 256))) as [y|] eqn:E.
  - apply Byte.to_of_N in E. rewrite E. lia.
  - apply Byte.of_N_None_iff in E. lia.
Qed.

Lemma Z_of_byte_inj (x y : byte) : Z_of_byte x = Z_of_byte y -> x = y.
Proof.
  unfold Z_of_byte. intros H. apply N2Z.inj in H.
  pose proof (Byte.of_to_N x) as Hx. pose proof (Byte.of_to_N y) as Hy.
  rewrite H in Hx. congruence.
Qed.

Lemma Compare_eq_iff (a c : bytes) : Compare a c = Eq <-> a = c.
Proof.
  revert c. induction a as [|x a IH]; intros [|y c]; simpl; split;
    try congruence; try discriminate.
  - destruct (Z.compare_spec (Z_of_byte x) (Z_of_byte y)) as [E|E|E];
      try discriminate.
    intros H. apply IH in H. apply Z_of_byte_inj in E. congruence.
  - intros H. injection H as -> ->. rewrite Z.compare_refl. now apply IH.
Qed.

Lemma land_shifted_byte (acc : Z) (x : byte) :
  Z.land (acc * 2 ^ 8) (Z_of_byte x) = 0.
Proof.
  pose proof (Z_of_byte_range x) as Hx.
  apply Z.bits_inj'; intros n Hn. rewrite Z.land_spec, Z.bits_0.
  destruct (Z.ltb_spec n 8) as [Hlt|Hge].
  - rewrite Z.mul_pow2_bits_low by lia. reflexivity.
  - rewrite (Z.bits_above_log2 (Z_of_byte x) n), andb_false_r; [reflexivity|lia|].
    destruct (Z.eq_dec (Z_of_byte x) 0) as [E|E].
    + rewrite E. simpl. lia.
    + assert (Z.log2 (Z_of_byte x) < 8); [|lia].
      apply Z.log2_lt_pow2; [lia|]. change (2 ^ 8) with 256. lia.
Qed.

Lemma lor_shiftl_byte (acc : Z) (x : byte) :
  Z.lor (Z.shiftl acc 8) (Z_of_byte x) = acc * 256 + Z_of_byte x.
Proof.
  rewrite Z.shiftl_mul_pow2 by lia.
  rewrite <- Z.lxor_lor, <- Z.add_nocarry_lxor by apply land_shifted_byte.
  reflexivity.
Qed.

Lemma be_decode_from (n : nat) (z acc : Z) :
  fold_left (fun a x => Z.lor (Z.shiftl a 8) (Z_of_byte x)) (be_encode n z) acc
  = acc * 2 ^ (8 * Z.of_nat n) + z mod 2 ^ (8 * Z.of_nat n).
Proof.
  revert acc. induction n as [|m IH]; intros acc.
  - simpl. rewrite Z.mod_1_r. lia.
  - cbn [be_encode fold_left]. rewrite IH, lor_shiftl_byte, Z_of_byte_of_Z.
    rewrite Z.shiftr_div_pow2 by lia.
    replace (8 * Z.of_nat (S m)) with (8 * Z.of_nat m + 8) by lia.
    rewrite Z.pow_add_r by lia. change (2 ^ 8) with 256.
    set (p := 2 ^ (8 * Z.of_nat m)).
    assert (Hp : 0 < p) by (apply Z.pow_pos_nonneg; lia).
    rewrite (Z.rem_mul_r z p 256) by lia. lia.
Qed.

Lemma be_decode_encode (n : nat) (z : Z) :
  0 <= z < 2 ^ (8 * Z.of_nat n) -> be_decode (be_encode n z) = z.
Proof.
  intros H. unfold be_decode. rewrite be_decode_from, Z.mod_small by assumption. lia.
Qed.

Lemma be_encode_length (n : nat) (z : Z) : length (be_encode n z) = n.
Proof.
  induction n; simpl; congruence.
Qed.

Lemma firstn_app_exact {A : Type} (n : nat) (a c : list A) :
  length a = n -> firstn n (a ++ c) = a.
Proof.
  intros <-. rewrite firstn_app, firstn_all, Nat.sub_diag, firstn_O. apply app_nil_r.
Qed.

Lemma skipn_app_exact {A : Type} (n : nat) (a c : list A) :
  length a = n -> skipn n (a ++ c) = c.
Proof.
  intros <-. rewrite skipn_app, skipn_all, Nat.sub_diag. reflexivity.
Qed.

(** ** The reference payload can be read back *)

Lemma Unwrap_Wrap_unpinned (key : bytes) :
  Z.of_nat (length key) < 2 ^ 64 ->
  UnwrapIndexReference (WrapIndexReference key None) = (key, x00, 0).
Proof.
  intros Hk. unfold UnwrapIndexReference, WrapIndexReference.
  rewrite firstn_app_exact, skipn_app_exact by apply be_encode_length.
  rewrite be_decode_encode by (change (8 * Z.of_nat 8) with 64; lia).
  rewrite Nat2Z.id, firstn_app_exact, skipn_app_exact by reflexivity.
  reflexivity.
Qed.

Lemma Unwrap_Wrap_pinned (key : bytes) (id : uint64) :
  Z.of_nat (length key) < 2 ^ 64 -> 0 <= id < 2 ^ 64 ->
  UnwrapIndexReference (WrapIndexReference key (Some id)) = (key, x01, id).
Proof.
  intros Hk Hid. unfold UnwrapIndexReference, WrapIndexReference.
  rewrite firstn_app_exact, skipn_app_exact by apply be_encode_length.
  rewrite be_decode_encode by (change (8 * Z.of_nat 8) with 64; lia).
  rewrite Nat2Z.id, firstn_app_exact, skipn_app_exact by reflexivity.
  cbn [hd Byte.eqb].
  replace (key ++ x01 :: be_encode 8 id) with ((key ++ [x01]) ++ be_encode 8 id)
    by (rewrite <- app_assoc; reflexivity).
  rewrite skipn_app_exact by (rewrite length_app; simpl; lia).
  rewrite firstn_all2 by (rewrite be_encode_length; lia).
  rewrite be_decode_encode by (change (8 * Z.of_nat 8) with 64; lia).
  reflexivity.
Qed.

(* ================================================================== *)
(** ** [ZScan]: where the scan starts *)

Section StartPosition.

Variable SortedSetSeparator : bytes.
Variable S : Store.

Lemma len_opt_pos (o : option bytes) :
  (0 <? len_opt o) = match o with Some (_ :: _) => true | _ => false end.
Proof.
  destruct o as [[|x c]|]; reflexivity.
Qed.

(** C5.  The start key [ZScan] computes is the one the first-match-wins
    rule gives: a supplied (non-empty) cursor verbatim, before anything
    else; else the set-and-min prefix when ascending with a min; else the
    set-and-max prefix when descending with a max; else the bare set
    prefix.  [ZScan] opens its reader on that key. *)
Theorem ZScan_start_position_precedence (d : St S) (options : ZScanOptions) :
  ZScan_offsetKey SortedSetSeparator options = startPosition SortedSetSeparator options
  /\ ZScan SortedSetSeparator S d options
     = ZScan_from SortedSetSeparator S d options (startPosition SortedSetSeparator options)
  /\ InitialKey (ZScan_readerSpec options (ZScan_offsetKey SortedSetSeparator options))
     = startPosition SortedSetSeparator options.
Proof.
  assert (E : ZScan_offsetKey SortedSetSeparator options
              = startPosition SortedSetSeparator options).
  { unfold ZScan_offsetKey, startPosition. rewrite len_opt_pos.
    destruct (zsOffset options) as [[|x c]|]; simpl;
      destruct (zsReverse options), (zsMin options), (zsMax options); reflexivity. }
  unfold ZScan. simpl. rewrite E. auto.
Qed.

(** Past the start key the cursor plays no part in the loop. *)
Lemma ZScan_loop_cursor_irrelevant (d : St S) (o1 o2 : option bytes)
    (set : bytes) (limit : uint64) (reverse : bool) (min max : option float64)
    (lim : uint64) (reader : reads) :
  forall items i,
    ZScan_loop SortedSetSeparator S d (mkZScanOptions set o1 limit reverse min max)
               lim reader items i
    = ZScan_loop SortedSetSeparator S d (mkZScanOptions set o2 limit reverse min max)
                 lim reader items i.
Proof.
  induction reader as [|[[[k v] ix]|e] rest IH]; intros items i; cbn [ZScan_loop].
  - reflexivity.
  - change (ZScan_entry SortedSetSeparator S d
              (mkZScanOptions set o1 limit reverse min max) k v ix)
      with (ZScan_entry SortedSetSeparator S d
              (mkZScanOptions set o2 limit reverse min max) k v ix).
    destruct (ZScan_entry SortedSetSeparator S d
                (mkZScanOptions set o2 limit reverse min max) k v ix)
      as [[z|]| |]; cbn [bind]; try reflexivity.
    + destruct (wrap64 (i + 1) =? lim); [reflexivity|apply IH].
    + apply IH.
  - reflexivity.
Qed.

(** C10.  A cursor that is present with length zero is treated as absent:
    the start key and the whole scan are those of the request without a
    cursor; a cursor of at least one byte is the start key. *)
Theorem ZScan_empty_cursor_is_absent (d : St S)
    (set : bytes) (limit : uint64) (reverse : bool) (min max : option float64) :
  ZScan_offsetKey SortedSetSeparator (mkZScanOptions set (Some []) limit reverse min max)
  = ZScan_offsetKey SortedSetSeparator (mkZScanOptions set None limit reverse min max)
  /\ ZScan SortedSetSeparator S d (mkZScanOptions set (Some []) limit reverse min max)
     = ZScan SortedSetSeparator S d (mkZScanOptions set None limit reverse min max)
  /\ ZScan_offsetKey SortedSetSeparator (mkZScanOptions set None limit reverse min max)
     = match reverse, min, max with
       | false, Some m, _ => AppendScoreToSet SortedSetSeparator set m
       | true, _, Some m => AppendScoreToSet SortedSetSeparator set m
       | _, _, _ => WrapSeparatorToSet SortedSetSeparator set
       end
  /\ forall x cursor,
       ZScan_offsetKey SortedSetSeparator
         (mkZScanOptions set (Some (x :: cursor)) limit reverse min max) = x :: cursor.
Proof.
  split; [reflexivity|]. split; [|split].
  - unfold ZScan, ZScan_from.
    change (ZScan_offsetKey SortedSetSeparator
              (mkZScanOptions set (Some []) limit reverse min max))
      with (ZScan_offsetKey SortedSetSeparator
              (mkZScanOptions set None limit reverse min max)).
    destruct (Snapshot S d) as [snap|e]; cbn [try bind]; [|reflexivity].
    change (ZScan_readerSpec (mkZScanOptions set (Some []) limit reverse min max))
      with (ZScan_readerSpec (mkZScanOptions set None limit reverse min max)).
    destruct (Reader S snap _) as [reader|e]; cbn [try bind]; [|reflexivity].
    change (ZScan_limit (mkZScanOptions set (Some []) limit reverse min max))
      with (ZScan_limit (mkZScanOptions set None limit reverse min max)).
    rewrite (ZScan_loop_cursor_irrelevant d (Some []) None). reflexivity.
  - destruct reverse, min, max; reflexivity.
  - intros x cursor. unfold ZScan_offsetKey. rewrite len_opt_pos. reflexivity.
Qed.

End StartPosition.

(* ================================================================== *)
(** ** [ZAdd]: validation, payload and commit *)

Section ZAddProperties.

Variable SortedSetSeparator : bytes.
Variable S : Store.

Local Abbreviation getSortedSetKeyVal := (getSortedSetKeyVal SortedSetSeparator S).
Local Abbreviation ZAdd := (ZAdd SortedSetSeparator S).
Local Abbreviation BuildSetKey := (BuildSetKey SortedSetSeparator).

(** When the check passes, the pair is built from the member key and the
    pin of the request. *)
Lemma getSortedSetKeyVal_passes (d : St S) (zaddOpts : ZAddOptions) (score : float64) :
  zaScore zaddOpts = Some score ->
  (exists id tx v, zaIndex zaddOpts = Some id /\ ReadTx S d id = OK tx
                   /\ ReadValue S d tx (zaKey zaddOpts) = OK v)
  \/ (exists i, zaIndex zaddOpts = None /\ Get S d (zaKey zaddOpts) = OK i
                /\ itKey i = zaKey zaddOpts) ->
  getSortedSetKeyVal d zaddOpts false
  = Ret (BuildSetKey (zaKey zaddOpts) (zaSet zaddOpts) score (zaIndex zaddOpts),
         WrapIndexReference (zaKey zaddOpts) (zaIndex zaddOpts)).
Proof.
  intros Hs [(id & tx & v & Hi & Htx & Hv)|(i & Hi & Hg & Hk)];
    unfold getSortedSetKeyVal; rewrite Hi; simpl.
  - rewrite Htx. simpl. rewrite Hv. simpl. rewrite Hs. reflexivity.
  - rewrite Hg. simpl. rewrite Hk.
    rewrite (proj2 (Compare_eq_iff _ _) eq_refl). simpl. rewrite Hs. reflexivity.
Qed.

(** Conversely, a pair comes out only with the member key and the pin of
    the request in it. *)
Lemma getSortedSetKeyVal_Ret (d : St S) (zaddOpts : ZAddOptions) (ik v : bytes) :
  getSortedSetKeyVal d zaddOpts false = Ret (ik, v) ->
  exists score,
    zaScore zaddOpts = Some score
    /\ ik = BuildSetKey (zaKey zaddOpts) (zaSet zaddOpts) score (zaIndex zaddOpts)
    /\ v = WrapIndexReference (zaKey zaddOpts) (zaIndex zaddOpts).
Proof.
  unfold getSortedSetKeyVal.
  destruct (zaIndex zaddOpts) as [id|]; simpl.
  - destruct (ReadTx S d id) as [tx|e]; simpl; [|discriminate].
    destruct (ReadValue S d tx (zaKey zaddOpts)); simpl; [|discriminate].
    destruct (zaScore zaddOpts) as [score|]; simpl; [|discriminate].
    intros H. injection H as <- <-. eauto.
  - destruct (Get S d (zaKey zaddOpts)) as [i|e]; simpl; [|discriminate].
    destruct (Compare (itKey i) (zaKey zaddOpts)); simpl; try discriminate.
    destruct (zaScore zaddOpts) as [score|]; simpl; [|discriminate].
    intros H. injection H as <- <-. eauto.
Qed.

(** An error built around another is a different value. *)
Lemma Errorf_fresh (e : error) : forall format s, Errorf format e s <> e.
Proof.
  induction e as [| | text|f' e' IH s']; intros format s H; try discriminate.
  injection H as _ H _. exact (IH _ _ H).
Qed.

(** C4, amended.  With a pin, [ZAdd] re-reads the pinned transaction: it
    fails with that read's error when the transaction cannot be read and
    with the reference-mismatch error when the member key has no value in
    its written set.  Without a pin, [ZAdd] looks the member key up: it
    fails with the lookup's own error when the lookup fails and with the
    reference-mismatch error when the key that comes back differs from the
    member key.  In these four cases nothing is committed.  Otherwise the
    check passes and the entry is handed to the store's commit, whose
    transaction id and hash are the result. *)
Theorem ZAdd_validation (d : St S) (zaddOpts : ZAddOptions) :
  (forall id e,
      zaIndex zaddOpts = Some id -> ReadTx S d id = Fail e ->
      ZAdd d zaddOpts = (Err e, d))
  /\ (forall id tx e,
      zaIndex zaddOpts = Some id -> ReadTx S d id = OK tx ->
      ReadValue S d tx (zaKey zaddOpts) = Fail e ->
      ZAdd d zaddOpts = (Err ErrIndexKeyMismatch, d))
  /\ (forall e,
      zaIndex zaddOpts = None -> Get S d (zaKey zaddOpts) = Fail e ->
      ZAdd d zaddOpts = (Err e, d))
  /\ (forall i,
      zaIndex zaddOpts = None -> Get S d (zaKey zaddOpts) = OK i ->
      itKey i <> zaKey zaddOpts ->
      ZAdd d zaddOpts = (Err ErrIndexKeyMismatch, d))
  /\ (forall score d' id ts alh,
      zaScore zaddOpts = Some score ->
      (exists id tx v, zaIndex zaddOpts = Some id /\ ReadTx S d id = OK tx
                       /\ ReadValue S d tx (zaKey zaddOpts) = OK v)
      \/ (exists i, zaIndex zaddOpts = None /\ Get S d (zaKey zaddOpts) = OK i
                    /\ itKey i = zaKey zaddOpts) ->
      Commit S d [mkKV (BuildSetKey (zaKey zaddOpts) (zaSet zaddOpts) score (zaIndex zaddOpts))
                       (WrapIndexReference (zaKey zaddOpts) (zaIndex zaddOpts))]
      = (d', OK (id, ts, alh)) ->
      ZAdd d zaddOpts = (Ret (mkRoot id alh), d')).
Proof.
  unfold ZAdd. repeat apply conj.
  - intros id e Hi Htx. unfold getSortedSetKeyVal. rewrite Hi. simpl. rewrite Htx.
    reflexivity.
  - intros id tx e Hi Htx Hv. unfold getSortedSetKeyVal. rewrite Hi. simpl.
    rewrite Htx. simpl. rewrite Hv. reflexivity.
  - intros e Hi Hg. unfold getSortedSetKeyVal. rewrite Hi. simpl. rewrite Hg.
    reflexivity.
  - intros i Hi Hg Hk. unfold getSortedSetKeyVal. rewrite Hi. simpl. rewrite Hg. simpl.
    destruct (Compare (itKey i) (zaKey zaddOpts)) eqn:E; try reflexivity.
    apply Compare_eq_iff in E. contradiction.
  - intros score d' id ts alh Hs Hv Hc.
    rewrite (getSortedSetKeyVal_passes d zaddOpts score Hs Hv), Hc. reflexivity.
Qed.

(** C9, amended.  When the check has passed and the store's commit returns
    an error, [ZAdd] returns a new error built by [fmt.Errorf] with the
    format "unexpected error %v during %s" around the store's error and
    "Reference"; that value is not the store's error. *)
Theorem ZAdd_commit_error_is_wrapped (d d' : St S) (zaddOpts : ZAddOptions)
    (ik v : bytes) (e : error) :
  getSortedSetKeyVal d zaddOpts false = Ret (ik, v) ->
  Commit S d [mkKV ik v] = (d', Fail e) ->
  ZAdd d zaddOpts = (Err (Errorf "unexpected error %v during %s" e "Reference"), d')
  /\ Errorf "unexpected error %v during %s" e "Reference" <> e.
Proof.
  intros Hg Hc. unfold ZAdd. rewrite Hg, Hc. split; [reflexivity|apply Errorf_fresh].
Qed.

(** C6.  After a successful [ZAdd] the value committed is the reference
    payload of the member key and of the pin exactly as the request has
    it: read back, it gives flag 1 and the caller's transaction id when a
    pin was supplied, and flag 0 with no index bytes when none was,
    whatever transaction id the lookup of the member key returned. *)
Theorem ZAdd_reference_keeps_pin (d d' : St S) (zaddOpts : ZAddOptions) (root : Root) :
  ZAdd d zaddOpts = (Ret root, d') ->
  Z.of_nat (length (zaKey zaddOpts)) < 2 ^ 64 ->
  (forall id, zaIndex zaddOpts = Some id -> 0 <= id < 2 ^ 64) ->
  exists ik referenceValue id ts alh,
    Commit S d [mkKV ik referenceValue] = (d', OK (id, ts, alh))
    /\ root = mkRoot id alh
    /\ referenceValue = WrapIndexReference (zaKey zaddOpts) (zaIndex zaddOpts)
    /\ match zaIndex zaddOpts with
       | Some pin =>
           UnwrapIndexReference referenceValue = (zaKey zaddOpts, x01, pin)
       | None =>
           UnwrapIndexReference referenceValue = (zaKey zaddOpts, x00, 0)
           /\ length referenceValue = (8 + length (zaKey zaddOpts) + 1)%nat
       end.
Proof.
  intros H Hk Hid. unfold ZAdd in H.
  destruct (getSortedSetKeyVal d zaddOpts false) as [[ik v]|e|] eqn:Hg;
    try discriminate.
  destruct (Commit S d [mkKV ik v]) as [d1 [[[id ts] alh]|e]] eqn:Hc; try discriminate.
  injection H as <- <-.
  destruct (getSortedSetKeyVal_Ret d zaddOpts ik v Hg) as (score & Hs & -> & ->).
  exists (BuildSetKey (zaKey zaddOpts) (zaSet zaddOpts) score (zaIndex zaddOpts)),
    (WrapIndexReference (zaKey zaddOpts) (zaIndex zaddOpts)), id, ts, alh.
  repeat apply conj; try reflexivity; try assumption.
  destruct (zaIndex zaddOpts) as [pin|].
  - apply Unwrap_Wrap_pinned; auto.
  - split; [apply Unwrap_Wrap_unpinned; assumption|].
    unfold WrapIndexReference. rewrite !length_app, be_encode_length. reflexivity.
Qed.

End ZAddProperties.

(* ================================================================== *)
(** ** [ZScan]: the loop, the limit and the end of the sequence *)

Section ScanLoop.

Variable SortedSetSeparator : bytes.
Variable S : Store.

Local Abbreviation scan := (ZScan SortedSetSeparator S).
Local Abbreviation loop := (ZScan_loop SortedSetSeparator S).
Local Abbreviation entry := (ZScan_entry SortedSetSeparator S).
Local Abbreviation startKey := (ZScan_offsetKey SortedSetSeparator).
Local Abbreviation emit := (emitted SortedSetSeparator S).
Local Abbreviation pass := (passes SortedSetSeparator S).

Lemma wrap64_small (z : Z) : 0 <= z < 2 ^ 64 -> wrap64 z = z.
Proof.
  intros H. unfold wrap64. apply Z.mod_small. exact H.
Qed.

Lemma emitted_length (d : St S) (options : ZScanOptions) (r : reads) :
  (length (flat_map (emit d options) r) <= length r)%nat.
Proof.
  induction r as [|x r IH]; simpl; [lia|].
  rewrite length_app.
  assert (length (emit d options x) <= 1)%nat; [|lia].
  unfold emitted. destruct x as [[[k v] ix]|e]; simpl; [|lia].
  destruct (entry d options k v ix) as [[z|]| |]; simpl; lia.
Qed.

(** With [i] counting the items collected so far, the loop never returns
    more than [limit] of them. *)
Lemma ZScan_loop_at_most (d : St S) (options : ZScanOptions) (limit : uint64)
    (reader : reads) :
  limit < 2 ^ 64 ->
  forall items i out,
    i = Z.of_nat (length items) -> i < limit ->
    loop d options limit reader items i = Ret out ->
    Z.of_nat (length out) <= limit.
Proof.
  intros Hl. induction reader as [|[[[k v] ix]|e] rest IH];
    intros items i out Hi Hlt; cbn [ZScan_loop].
  - intros H. injection H as <-. lia.
  - destruct (entry d options k v ix) as [[z|]| |]; cbn [bind];
      try discriminate.
    + rewrite wrap64_small by lia.
      destruct (Z.eqb_spec (i + 1) limit) as [E|E].
      * intros H. injection H as <-. rewrite length_app. simpl. lia.
      * apply IH; [rewrite length_app; simpl; lia|lia].
    + apply IH; assumption.
  - destruct (is_ErrNoMoreEntries e); [|discriminate].
    intros H. injection H as <-. lia.
Qed.

(** As long as the limit is not reached the loop goes through the entries
    that pass and collects what they emit. *)
Lemma ZScan_loop_through (d : St S) (options : ZScanOptions) (limit : uint64)
    (tail : reads) (r : reads) :
  limit < 2 ^ 64 ->
  Forall (pass d options) r ->
  forall items i,
    i = Z.of_nat (length items) ->
    i + Z.of_nat (length (flat_map (emit d options) r)) < limit ->
    loop d options limit (r ++ tail) items i
    = loop d options limit tail
        (items ++ flat_map (emit d options) r)
        (i + Z.of_nat (length (flat_map (emit d options) r))).
Proof.
  intros Hl Hr. induction Hr as [|x r Hx Hr IH]; intros items i Hi Hlt.
  - simpl. rewrite app_nil_r, Z.add_0_r. reflexivity.
  - destruct Hx as (k & v & ix & step & -> & Hstep).
    assert (Hem : emit d options (OK (k, v, ix))
                  = match step with Some z => [z] | None => [] end).
    { unfold emitted. rewrite Hstep. destruct step; reflexivity. }
    cbn [app ZScan_loop flat_map] in *. rewrite Hem in *. rewrite Hstep.
    cbn [bind]. destruct step as [z|].
    + rewrite length_app in Hlt. cbn [length] in Hlt.
      rewrite wrap64_small by lia.
      destruct (Z.eqb_spec (i + 1) limit) as [E|E]; [lia|].
      rewrite IH by (rewrite ?length_app; simpl; lia).
      rewrite <- app_assoc, length_app. cbn [app length]. f_equal. lia.
    + cbn [app length] in *. apply IH; assumption.
Qed.

(** C8.  With a limit [L > 0], [ZScan] returns at most [L] items and
    returns as soon as the [L]-th one is appended: what the reader would
    give after the entry that produced it is not read.  With limit 0 the
    scan goes on to the end of the reader's sequence, and reaching the end
    is a normal return of everything collected, not an error.  (The count
    is held in a [uint64]: for limit 0 the sequence is taken shorter than
    [2^64 - 1].) *)
Theorem ZScan_limit_and_end (d : St S) (options : ZScanOptions)
    (snapshot : Snap S) (reader : reads) :
  Snapshot S d = OK snapshot ->
  Reader S snapshot (ZScan_readerSpec options (startKey options)) = OK reader ->
  0 <= zsLimit options < 2 ^ 64 ->
  (0 < zsLimit options ->
   forall list, scan d options = Ret list ->
                Z.of_nat (length (Items list)) <= zsLimit options)
  /\ (0 < zsLimit options ->
      forall r k v ix zitem rest,
        reader = r ++ OK (k, v, ix) :: rest ->
        Forall (pass d options) r ->
        entry d options k v ix = Ret (Some zitem) ->
        Z.of_nat (length (flat_map (emit d options) r)) = zsLimit options - 1 ->
        scan d options = Ret (mkZItemList (flat_map (emit d options) r ++ [zitem])))
  /\ (zsLimit options = 0 ->
      forall r tail,
        reader = r ++ tail ->
        tail = [] \/ (exists rest, tail = Fail ErrNoMoreEntries :: rest) ->
        Forall (pass d options) r ->
        Z.of_nat (length r) < 2 ^ 64 - 1 ->
        scan d options = Ret (mkZItemList (flat_map (emit d options) r))).
Proof.
  intros Hsnap Hreader HL.
  assert (Hscan : scan d options
                  = (items <- loop d options (ZScan_limit options) reader [] 0 ;;
                     Ret (mkZItemList items))).
  { unfold ZScan, ZScan_from. rewrite Hsnap. cbn [try bind].
    rewrite Hreader. reflexivity. }
  repeat apply conj.
  - intros Hpos list H. rewrite Hscan in H.
    assert (El : ZScan_limit options = zsLimit options).
    { unfold ZScan_limit. destruct (Z.eqb_spec (zsLimit options) 0); [lia|reflexivity]. }
    rewrite El in H.
    destruct (loop d options (zsLimit options) reader [] 0) as [out| |] eqn:E;
      try discriminate.
    injection H as <-. simpl.
    apply (ZScan_loop_at_most d options (zsLimit options) reader) with (items := []) (i := 0);
      simpl; try lia. exact E.
  - intros Hpos r k v ix zitem rest -> Hr Hz Hn. rewrite Hscan.
    assert (El : ZScan_limit options = zsLimit options).
    { unfold ZScan_limit. destruct (Z.eqb_spec (zsLimit options) 0); [lia|reflexivity]. }
    rewrite El, ZScan_loop_through by (simpl; try assumption; lia).
    cbn [ZScan_loop app]. rewrite Hz. cbn [bind].
    rewrite wrap64_small by lia.
    destruct (Z.eqb_spec (0 + Z.of_nat (length (flat_map (emit d options) r)) + 1)
                         (zsLimit options)) as [E|E]; [reflexivity|lia].
  - intros H0 r tail -> Htail Hr Hlen. rewrite Hscan.
    assert (El : ZScan_limit options = MaxUint64).
    { unfold ZScan_limit. rewrite H0. reflexivity. }
    pose proof (emitted_length d options r) as Hem.
    rewrite El, ZScan_loop_through; simpl; try assumption;
      try (unfold MaxUint64; lia).
    destruct Htail as [->|(rest & ->)]; reflexivity.
Qed.

End ScanLoop.

(* ================================================================== *)
(** ** [ZScan]: what one turn of the loop does with an entry *)

Section ScanEntry.

Variable SortedSetSeparator : bytes.
Variable S : Store.

Local Abbreviation scan := (ZScan SortedSetSeparator S).
Local Abbreviation loop := (ZScan_loop SortedSetSeparator S).
Local Abbreviation entry := (ZScan_entry SortedSetSeparator S).

(** X14.  An entry whose key lacks the separator is not skipped: without
    score bounds a nil item goes on to [append]; with a bound the nil item
    is dereferenced. *)
Lemma ZScan_entry_without_separator (d : St S) (options : ZScanOptions)
    (k btreeVal : bytes) (ix : uint64) :
  HasPrefix k SortedSetSeparator = false ->
  (12 <= length btreeVal)%nat ->
  entry d options k btreeVal ix
  = match zsMin options, zsMax options with
    | None, None => Ret (Some None)
    | _, _ => Panic
    end.
Proof.
  intros Hp Hl. unfold ZScan_entry, Uint32, Uint64, slice_from.
  assert (H4 : (length btreeVal <? 4)%nat = false) by (apply Nat.ltb_ge; lia).
  assert (H12 : (length btreeVal <? 12)%nat = false) by (apply Nat.ltb_ge; lia).
  assert (H8 : (length (skipn 4 btreeVal) <? 8)%nat = false)
    by (apply Nat.ltb_ge; rewrite length_skipn; lia).
  rewrite H4, H12. cbn [bind]. rewrite H8. cbn [bind].
  destruct (ReadValueAt S d _ _ _) as [refVal err]. rewrite Hp. cbn [bind deref].
  destruct (zsMin options), (zsMax options); reflexivity.
Qed.

(** The error of [ReadValueAt] has no part in the result of a turn. *)
Lemma ZScan_entry_ignores_read_error (d : St S) (options : ZScanOptions)
    (k btreeVal : bytes) (ix : uint64) :
  ZScan_entry SortedSetSeparator (without_read_error S) d options k btreeVal ix
  = entry d options k btreeVal ix.
Proof.
  unfold ZScan_entry.
  destruct (Uint32 btreeVal) as [valLen| |]; cbn [bind]; try reflexivity.
  destruct (slice_from 4 btreeVal) as [tail4| |]; cbn [bind]; try reflexivity.
  destruct (Uint64 tail4) as [vOff| |]; cbn [bind]; try reflexivity.
  destruct (slice_from 12 btreeVal) as [tail12| |]; cbn [bind]; try reflexivity.
  cbn [ReadValueAt without_read_error].
  destruct (ReadValueAt S d (make valLen) (int64_of_uint64 vOff) (copy_into 32 tail12))
    as [refVal err].
  reflexivity.
Qed.

Lemma ZScan_loop_ignores_read_error (d : St S) (options : ZScanOptions)
    (limit : uint64) (reader : reads) :
  forall items i,
    ZScan_loop SortedSetSeparator (without_read_error S) d options limit reader items i
    = loop d options limit reader items i.
Proof.
  induction reader as [|[[[k v] ix]|e] rest IH]; intros items i; cbn [ZScan_loop].
  - reflexivity.
  - rewrite ZScan_entry_ignores_read_error.
    destruct (entry d options k v ix) as [[z|]| |]; cbn [bind]; try reflexivity.
    + destruct (wrap64 (i + 1) =? limit); [reflexivity|apply IH].
    + apply IH.
  - reflexivity.
Qed.

(** X13.  Whether [ReadValueAt] reports a hash mismatch or not, [ZScan]
    returns the same thing. *)
Lemma ZScan_ignores_read_error (d : St S) (options : ZScanOptions) :
  ZScan SortedSetSeparator (without_read_error S) d options = scan d options.
Proof.
  unfold ZScan, ZScan_from. cbn [Snapshot Reader without_read_error].
  destruct (Snapshot S d) as [snap|e]; cbn [try bind]; [|reflexivity].
  destruct (Reader S snap _) as [reader|e]; cbn [try bind]; [|reflexivity].
  rewrite ZScan_loop_ignores_read_error. reflexivity.
Qed.

(** The item a turn hands to [append] is within the score bounds of the
    request; a nil item gets there only when there is no bound. *)
Lemma ZScan_entry_range_guard (d : St S) (options : ZScanOptions)
    (k btreeVal : bytes) (ix : uint64) (zitem : option ZItem) :
  entry d options k btreeVal ix = Ret (Some zitem) ->
  match zitem with
  | Some z =>
      (forall min, zsMin options = Some min -> f64_lt (ziScore z) min = false)
      /\ (forall max, zsMax options = Some max -> f64_gt (ziScore z) max = false)
  | None => zsMin options = None /\ zsMax options = None
  end.
Proof.
  unfold ZScan_entry.
  destruct (Uint32 btreeVal) as [valLen| |]; cbn [bind]; try discriminate.
  destruct (slice_from 4 btreeVal) as [tail4| |]; cbn [bind]; try discriminate.
  destruct (Uint64 tail4) as [vOff| |]; cbn [bind]; try discriminate.
  destruct (slice_from 12 btreeVal) as [tail12| |]; cbn [bind]; try discriminate.
  destruct (ReadValueAt S d _ _ _) as [refVal err].
  match goal with |- context [bind ?m _] => destruct m as [item| |] end;
    cbn [bind]; try discriminate.
  destruct item as [it|]; cbn [deref bind].
  - destruct (zsMin options) as [min|], (zsMax options) as [max|]; cbn [bind];
      repeat match goal with
             | |- context [if ?c then _ else _] => destruct c eqn:?
             end; try discriminate;
      intros H; injection H as <-; cbn [ziScore]; split; intros m Hm;
      try discriminate; injection Hm as <-; assumption.
  - destruct (zsMin options), (zsMax options); cbn [bind]; try discriminate.
    intros H. injection H as <-. split; reflexivity.
Qed.

(** The item a turn makes carries the key of the entry. *)
Lemma ZScan_entry_key (d : St S) (options : ZScanOptions)
    (k btreeVal : bytes) (ix : uint64) (z : ZItem) :
  entry d options k btreeVal ix = Ret (Some (Some z)) -> ziCurrentOffset z = k.
Proof.
  unfold ZScan_entry.
  destruct (Uint32 btreeVal) as [valLen| |]; cbn [bind]; try discriminate.
  destruct (slice_from 4 btreeVal) as [tail4| |]; cbn [bind]; try discriminate.
  destruct (Uint64 tail4) as [vOff| |]; cbn [bind]; try discriminate.
  destruct (slice_from 12 btreeVal) as [tail12| |]; cbn [bind]; try discriminate.
  destruct (ReadValueAt S d _ _ _) as [refVal err].
  match goal with |- context [bind ?m _] => destruct m as [item| |] end;
    cbn [bind]; try discriminate.
  destruct item as [it|]; cbn [deref bind].
  - destruct (zsMin options) as [min|], (zsMax options) as [max|]; cbn [bind];
      repeat match goal with
             | |- context [if ?c then _ else _] => destruct c
             end; try discriminate;
      intros H; injection H as <-; reflexivity.
  - destruct (zsMin options), (zsMax options); cbn [bind]; discriminate.
Qed.

Lemma subsequence_nil_l {A : Type} (l : list A) : subsequence [] l.
Proof.
  induction l; constructor; assumption.
Qed.

(** The loop adds items in the order in which the reader gives the entries. *)
Lemma ZScan_loop_follows_reader (d : St S) (options : ZScanOptions) (limit : uint64)
    (reader : reads) :
  forall items i out,
    loop d options limit reader items i = Ret out ->
    exists added,
      item_keys out = item_keys items ++ added
      /\ subsequence added (read_keys reader).
Proof.
  induction reader as [|[[[k v] ix]|e] rest IH]; intros items i out;
    cbn [ZScan_loop].
  - intros H. injection H as <-. exists []. rewrite app_nil_r.
    split; [reflexivity|constructor].
  - destruct (entry d options k v ix) as [[zitem|]| |] eqn:E; cbn [bind];
      try discriminate.
    + assert (Hk : item_keys (items ++ [zitem])
                   = item_keys items
                     ++ match zitem with Some _ => [k] | None => [] end).
      { unfold item_keys. rewrite flat_map_app. cbn [flat_map]. rewrite app_nil_r.
        destruct zitem as [z|]; [|reflexivity].
        rewrite (ZScan_entry_key d options k v ix z E). reflexivity. }
      destruct (wrap64 (i + 1) =? limit).
      * intros H. injection H as <-. rewrite Hk. eexists. split; [reflexivity|].
        cbn [read_keys flat_map app].
        destruct zitem; [apply subsequence_keep|apply subsequence_skip];
          apply subsequence_nil_l.
      * intros H. destruct (IH _ _ _ H) as (added & Ha & Hs).
        rewrite Ha, Hk, <- app_assoc. eexists. split; [reflexivity|].
        cbn [read_keys flat_map app].
        destruct zitem; cbn [app];
          [apply subsequence_keep|apply subsequence_skip]; exact Hs.
    + intros H. destruct (IH _ _ _ H) as (added & Ha & Hs).
      exists added. split; [exact Ha|]. cbn [read_keys flat_map app].
      apply subsequence_skip. exact Hs.
  - destruct (is_ErrNoMoreEntries e); [|discriminate].
    intros H. injection H as <-. exists []. rewrite app_nil_r.
    split; [reflexivity|]. apply subsequence_nil_l.
Qed.

(** X12.  The items [ZScan] returns come in the order of the reader it
    opened, and that reader is opened with [AscOrder] set to [Reverse]. *)
Lemma ZScan_follows_reader (d : St S) (options : ZScanOptions) (list : ZItemList)
    (snapshot : Snap S) (reader : reads) :
  Snapshot S d = OK snapshot ->
  Reader S snapshot
    {| IsPrefix := true;
       InitialKey := ZScan_offsetKey SortedSetSeparator options;
       AscOrder := zsReverse options |} = OK reader ->
  scan d options = Ret list ->
  subsequence (item_keys (Items list)) (read_keys reader).
Proof.
  intros Hsnap Hreader. unfold ZScan, ZScan_from, ZScan_readerSpec.
  rewrite Hsnap. cbn [try bind]. rewrite Hreader. cbn [try bind].
  destruct (loop d options (ZScan_limit options) reader [] 0) as [out| |] eqn:E;
    cbn [bind]; try discriminate.
  intros H. injection H as <-. cbn [Items].
  destruct (ZScan_loop_follows_reader d options _ reader [] 0 out E) as (added & Ha & Hs).
  rewrite Ha. exact Hs.
Qed.

Lemma ZScan_loop_range_guard (d : St S) (options : ZScanOptions) (limit : uint64)
    (P : option ZItem -> Prop) (reader : reads) :
  (forall k v ix zitem, entry d options k v ix = Ret (Some zitem) -> P zitem) ->
  forall items i out,
    Forall P items ->
    loop d options limit reader items i = Ret out -> Forall P out.
Proof.
  intros HP. induction reader as [|[[[k v] ix]|e] rest IH]; intros items i out Hitems;
    cbn [ZScan_loop].
  - intros H. injection H as <-. assumption.
  - destruct (entry d options k v ix) as [[z|]| |] eqn:E; cbn [bind]; try discriminate.
    + assert (Hz : Forall P (items ++ [z])).
      { apply Forall_app. split; [assumption|]. constructor; [|constructor]. eauto. }
      destruct (wrap64 (i + 1) =? limit).
      * intros H. injection H as <-. assumption.
      * apply IH. assumption.
    + apply IH. assumption.
  - destruct (is_ErrNoMoreEntries e); [|discriminate].
    intros H. injection H as <-. assumption.
Qed.

(** X11.  Every item [ZScan] returns is within the score bounds of the
    request: its score is not below a supplied min and not above a
    supplied max; a nil item is returned only when there is no bound. *)
Lemma ZScan_range_guard (d : St S) (options : ZScanOptions) (list : ZItemList) :
  scan d options = Ret list ->
  Forall (fun zitem =>
            match zitem with
            | Some z =>
                (forall min, zsMin options = Some min -> f64_lt (ziScore z) min = false)
                /\ (forall max, zsMax options = Some max -> f64_gt (ziScore z) max = false)
            | None => zsMin options = None /\ zsMax options = None
            end) (Items list).
Proof.
  unfold ZScan, ZScan_from.
  destruct (Snapshot S d) as [snap|e]; cbn [try bind]; [|discriminate].
  destruct (Reader S snap _) as [reader|e]; cbn [try bind]; [|discriminate].
  destruct (loop d options (ZScan_limit options) reader [] 0) as [out| |] eqn:E;
    cbn [bind]; try discriminate.
  intros H. injection H as <-. cbn [Items].
  eapply ZScan_loop_range_guard; [|constructor|exact E].
  intros k v ix zitem. apply ZScan_entry_range_guard.
Qed.

End ScanEntry.

(* ================================================================== *)
(** ** The scenario *)

Section ScenarioFacts.

Import Scenario.

(** C1.  With scores 3.0, 1.0, 2.0 added to one set, [ZScan] hands
    [Reverse] to the reader as [AscOrder]: the scan with [reverse = false]
    asks for descending order from the bare set prefix and returns
    nothing, the scan with [reverse = true] asks for ascending order and
    returns 1.0, 2.0, 3.0. *)
Theorem ZScan_order_scenario :
  (forall options offsetKey,
      AscOrder (ZScan_readerSpec options offsetKey) = zsReverse options)
  /\ scores (ZScan separator st d3 (zscan false None None)) = Ret []
  /\ scores (ZScan separator st d3 (zscan true None None))
     = Ret [Some f1_0; Some f2_0; Some f3_0].
Proof.
  split; [reflexivity|]. split; vm_compute; reflexivity.
Qed.

(** C7.  With the same three entries, [ZScan] with min 1.5 and max 2.5
    returns no entry, in either direction: the reader is opened on the
    set-and-bound prefix with [AscOrder = Reverse] and does not reach the
    2.0 entry. *)
Theorem ZScan_range_scenario :
  scores (ZScan separator st d3 (zscan false (Some f1_5) (Some f2_5))) = Ret []
  /\ scores (ZScan separator st d3 (zscan true (Some f1_5) (Some f2_5))) = Ret []
  /\ f64_lt f1_5 f2_0 = true /\ f64_lt f2_0 f2_5 = true.
Proof.
  repeat split; vm_compute; reflexivity.
Qed.

(** C2.  A scan whose cursor is the beginning of the plain keys meets
    key1, key2 and key3, which do not carry the separator: without bounds
    it returns three nil items, with a min or a max it panics on the nil
    item. *)
Theorem ZScan_plain_key_scenario :
  HasPrefix (b "key1") separator = false
  /\ ZScan separator st d3 (zscan_plain None None) = Ret (mkZItemList [None; None; None])
  /\ ZScan separator st d3 (zscan_plain (Some f1_0) None) = Panic
  /\ ZScan separator st d3 (zscan_plain None (Some f3_0)) = Panic.
Proof.
  repeat split; vm_compute; reflexivity.
Qed.

(** C3.  After the stored reference of the 3.0 entry is overwritten,
    [ReadValueAt] reports the hash mismatch for it, and [ZScan] returns
    without error, with key2 and its value in the place of key1. *)
Theorem ZScan_corrupt_reference_scenario :
  In (OK (ik_3_0, pointer_3_0, 4)) reads3
  /\ snd (ReadValueAt st d3 (make 13) 12 (skipn 12 pointer_3_0)) = None
  /\ snd (ReadValueAt st d3_corrupt (make 13) 12 (skipn 12 pointer_3_0))
     = Some MemStore.ErrCorruptedData
  /\ members (ZScan separator st d3 (zscan true None None))
     = Ret [Some ("key2", "val2"); Some ("key3", "val3"); Some ("key1", "val1")]%string
  /\ members (ZScan separator st d3_corrupt (zscan true None None))
     = Ret [Some ("key2", "val2"); Some ("key3", "val3"); Some ("key2", "val2")]%string.
Proof.
  split; [vm_compute; tauto|]. repeat split; vm_compute; reflexivity.
Qed.

(** C4, as stated, fails: the lookup of a key that does not exist fails
    with the lookup's error, and a pin on a transaction that cannot be read
    fails with the error of that read; neither is the reference-mismatch
    error, and nothing is committed. *)
Lemma ZAdd_validation_counterexample :
  Get st d0 (b "nokey") = Fail MemStore.ErrKeyNotFound
  /\ ZAdd separator st d0 (zadd f3_0 "nokey") = (Err MemStore.ErrKeyNotFound, d0)
  /\ MemStore.ErrKeyNotFound <> ErrIndexKeyMismatch
  /\ ReadTx st d0 9 = Fail MemStore.ErrTxNotFound
  /\ ZAdd separator st d0 (zadd_pinned f3_0 "key1" 9) = (Err MemStore.ErrTxNotFound, d0)
  /\ MemStore.ErrTxNotFound <> ErrIndexKeyMismatch.
Proof.
  repeat split; try (vm_compute; reflexivity); discriminate.
Qed.

(** The five cases of the check on the stores of the scenario. *)
Lemma ZAdd_validation_witness :
  ZAdd separator st d0 (zadd_pinned f3_0 "key1" 9) = (Err MemStore.ErrTxNotFound, d0)
  /\ ZAdd separator st d0 (zadd_pinned f3_0 "key1" 2) = (Err ErrIndexKeyMismatch, d0)
  /\ ZAdd separator st d0 (zadd f3_0 "nokey") = (Err MemStore.ErrKeyNotFound, d0)
  /\ ZAdd separator st_prefix_lookup d0 (zadd f3_0 "key") = (Err ErrIndexKeyMismatch, d0)
  /\ ZAdd separator st d0 (zadd f3_0 "key1") = (Ret (mkRoot 4 (MemStore.alh d1)), d1)
  /\ ZAdd separator st d0 (zadd_pinned f3_0 "key1" 1)
     = (Ret (mkRoot 4 (MemStore.alh d1_pinned)), d1_pinned).
Proof.
  split; [|split; [|split; [|split; [|split]]]].
  - apply (proj1 (ZAdd_validation separator st d0 (zadd_pinned f3_0 "key1" 9))
             9 MemStore.ErrTxNotFound); reflexivity.
  - apply (proj1 (proj2 (ZAdd_validation separator st d0 (zadd_pinned f3_0 "key1" 2)))
             2 [mkKV (b "key2") (b "val2")] MemStore.ErrKeyNotFound); reflexivity.
  - apply (proj1 (proj2 (proj2 (ZAdd_validation separator st d0 (zadd f3_0 "nokey"))))
             MemStore.ErrKeyNotFound); reflexivity.
  - apply (proj1 (proj2 (proj2 (proj2
             (ZAdd_validation separator st_prefix_lookup d0 (zadd f3_0 "key")))))
             (mkItem (b "key1") (b "val1") 1)); [reflexivity|reflexivity|].
    discriminate.
  - apply (proj2 (proj2 (proj2 (proj2 (ZAdd_validation separator st d0 (zadd f3_0 "key1")))))
             f3_0 d1 4 0 (MemStore.alh d1)); [reflexivity| |reflexivity].
    right. exists (mkItem (b "key1") (b "val1") 1). repeat split; reflexivity.
  - apply (proj2 (proj2 (proj2 (proj2
             (ZAdd_validation separator st d0 (zadd_pinned f3_0 "key1" 1)))))
             f3_0 d1_pinned 4 0 (MemStore.alh d1_pinned)); [reflexivity| |reflexivity].
    left. exists 1, [mkKV (b "key1") (b "val1")], (b "val1"). repeat split; reflexivity.
Defined.

(** C9, as stated, fails: when the commit fails with "disk full", the
    error [ZAdd] returns is another value. *)
Lemma ZAdd_commit_error_counterexample :
  Commit st_commit_fails d0 [mkKV ik_3_0 ref_key1] = (d0, Fail diskFull)
  /\ ZAdd separator st_commit_fails d0 (zadd f3_0 "key1")
     = (Err (Errorf "unexpected error %v during %s" diskFull "Reference"), d0)
  /\ fst (ZAdd separator st_commit_fails d0 (zadd f3_0 "key1")) <> Err diskFull.
Proof.
  split; [reflexivity|]. split; [vm_compute; reflexivity|].
  vm_compute. discriminate.
Qed.

(** The failing commit of the scenario. *)
Lemma ZAdd_commit_error_is_wrapped_witness :
  ZAdd separator st_commit_fails d0 (zadd f3_0 "key1")
  = (Err (Errorf "unexpected error %v during %s" diskFull "Reference"), d0)
  /\ Errorf "unexpected error %v during %s" diskFull "Reference" <> diskFull.
Proof.
  apply (ZAdd_commit_error_is_wrapped separator st_commit_fails d0 d0
           (zadd f3_0 "key1") ik_3_0 ref_key1 diskFull); reflexivity.
Defined.

(** The entry for key1 added pinned to transaction 1, and unpinned. *)
Lemma ZAdd_reference_keeps_pin_witness :
  (exists ik referenceValue id ts alh,
      Commit st d0 [mkKV ik referenceValue] = (d1_pinned, OK (id, ts, alh))
      /\ mkRoot 4 (MemStore.alh d1_pinned) = mkRoot id alh
      /\ referenceValue = WrapIndexReference (b "key1") (Some 1)
      /\ UnwrapIndexReference referenceValue = (b "key1", x01, 1))
  /\ (exists ik referenceValue id ts alh,
      Commit st d0 [mkKV ik referenceValue] = (d1, OK (id, ts, alh))
      /\ mkRoot 4 (MemStore.alh d1) = mkRoot id alh
      /\ referenceValue = WrapIndexReference (b "key1") None
      /\ UnwrapIndexReference referenceValue = (b "key1", x00, 0)
         /\ length referenceValue = (8 + length (b "key1") + 1)%nat).
Proof.
  split.
  - apply (ZAdd_reference_keeps_pin separator st d0 d1_pinned
             (zadd_pinned f3_0 "key1" 1) (mkRoot 4 (MemStore.alh d1_pinned))).
    + reflexivity.
    + simpl. lia.
    + intros id H. injection H as <-. lia.
  - apply (ZAdd_reference_keeps_pin separator st d0 d1
             (zadd f3_0 "key1") (mkRoot 4 (MemStore.alh d1))).
    + reflexivity.
    + simpl. lia.
    + intros id H. discriminate H.
Defined.

(** The set of the scenario scanned with limit 2 and with limit 0. *)
Lemma ZScan_limit_and_end_witness :
  Z.of_nat (length [zitem3 0; zitem3 1]) <= 2
  /\ ZScan separator st d3 (zscan_limit 2) = Ret (mkZItemList [zitem3 0; zitem3 1])
  /\ ZScan separator st d3 (zscan_limit 0)
     = Ret (mkZItemList [zitem3 0; zitem3 1; zitem3 2]).
Proof.
  assert (Hsnap : Snapshot st d3 = OK (MemStore.index d3)) by reflexivity.
  assert (Hr2 : Reader st (MemStore.index d3)
                  (ZScan_readerSpec (zscan_limit 2)
                     (ZScan_offsetKey separator (zscan_limit 2))) = OK reads3)
    by (vm_compute; reflexivity).
  assert (Hr0 : Reader st (MemStore.index d3)
                  (ZScan_readerSpec (zscan_limit 0)
                     (ZScan_offsetKey separator (zscan_limit 0))) = OK reads3)
    by (vm_compute; reflexivity).
  assert (HL2 : 0 <= zsLimit (zscan_limit 2) < 2 ^ 64) by (cbn [zsLimit zscan_limit]; lia).
  assert (HL0 : 0 <= zsLimit (zscan_limit 0) < 2 ^ 64) by (cbn [zsLimit zscan_limit]; lia).
  assert (Hpos : 0 < zsLimit (zscan_limit 2)) by (cbn [zsLimit zscan_limit]; lia).
  assert (Hreads : reads3 = [OK (entry3 0); OK (entry3 1); OK (entry3 2)])
    by (vm_compute; reflexivity).
  assert (Hpass : forall limit n,
            ZScan_entry separator st d3 (zscan_limit limit)
              (fst (fst (entry3 n))) (snd (fst (entry3 n))) (snd (entry3 n))
            = Ret (Some (zitem3 n)) ->
            passes separator st d3 (zscan_limit limit) (OK (entry3 n))).
  { intros limit n H.
    exists (fst (fst (entry3 n))), (snd (fst (entry3 n))), (snd (entry3 n)), (Some (zitem3 n)).
    split; [|exact H]. destruct (entry3 n) as [[k v] ix]. reflexivity. }
  pose proof (ZScan_limit_and_end separator st d3 (zscan_limit 2)
                (MemStore.index d3) reads3 Hsnap Hr2 HL2) as (Hmost & Hstop & _).
  pose proof (ZScan_limit_and_end separator st d3 (zscan_limit 0)
                (MemStore.index d3) reads3 Hsnap Hr0 HL0) as (_ & _ & Hend).
  split; [|split].
  - apply (Hmost Hpos (mkZItemList [zitem3 0; zitem3 1])).
    vm_compute. reflexivity.
  - etransitivity.
    + apply (Hstop Hpos [OK (entry3 0)]
               (fst (fst (entry3 1))) (snd (fst (entry3 1))) (snd (entry3 1))
               (zitem3 1) [OK (entry3 2)]).
      * vm_compute. reflexivity.
      * constructor; [|constructor]. apply Hpass. vm_compute. reflexivity.
      * vm_compute. reflexivity.
      * vm_compute. reflexivity.
    + vm_compute. reflexivity.
  - etransitivity.
    + apply (Hend eq_refl reads3 []).
      * symmetry. apply app_nil_r.
      * left. reflexivity.
      * rewrite Hreads.
        constructor; [apply Hpass; vm_compute; reflexivity|].
        constructor; [apply Hpass; vm_compute; reflexivity|].
        constructor; [apply Hpass; vm_compute; reflexivity|constructor].
      * vm_compute. reflexivity.
    + vm_compute. reflexivity.
Defined.

End ScenarioFacts.

(* ================================================================== *)
(** ** Further properties of [sorted_set.go] *)

(** *** The score field of a composite key *)

Lemma lxor_range64 (a m : Z) :
  0 <= a < 2 ^ 64 -> 0 <= m < 2 ^ 64 -> 0 <= Z.lxor a m < 2 ^ 64.
Proof.
  intros Ha Hm.
  assert (H0 : 0 <= Z.lxor a m) by (apply Z.lxor_nonneg; lia).
  split; [exact H0|].
  destruct (Z.eq_dec (Z.lxor a m) 0) as [E|E]; [rewrite E; lia|].
  apply Z.log2_lt_pow2; [lia|].
  pose proof (Z.log2_lxor a m ltac:(lia) ltac:(lia)) as Hl.
  assert (Hla : Z.log2 a < 64).
  { destruct (Z.eq_dec a 0) as [->|]; [simpl; lia|apply Z.log2_lt_pow2; lia]. }
  assert (Hlm : Z.log2 m < 64).
  { destruct (Z.eq_dec m 0) as [->|]; [simpl; lia|apply Z.log2_lt_pow2; lia]. }
  lia.
Qed.

Lemma decodeScore_encodeScore (score : float64) (rest : bytes) :
  0 <= score < 2 ^ 64 -> decodeScore (encodeScore score ++ rest) = score.
Proof.
  intros Hs. unfold decodeScore, encodeScore.
  rewrite firstn_app_exact by apply be_encode_length.
  destruct (Z.testbit score 63) eqn:Hb.
  - rewrite be_decode_encode
      by (change (8 * Z.of_nat 8) with 64; apply lxor_range64; lia).
    rewrite Z.lxor_spec, Hb.
    change (Z.testbit 0xFFFFFFFFFFFFFFFF 63) with true. cbn [xorb].
    rewrite Z.lxor_assoc, Z.lxor_nilpotent, Z.lxor_0_r. reflexivity.
  - rewrite be_decode_encode
      by (change (8 * Z.of_nat 8) with 64; apply lxor_range64; lia).
    rewrite Z.lxor_spec, Hb.
    change (Z.testbit 0x8000000000000000 63) with true. cbn [xorb].
    rewrite Z.lxor_assoc, Z.lxor_nilpotent, Z.lxor_0_r. reflexivity.
Qed.

Lemma HasPrefix_app (pre rest : bytes) : HasPrefix (pre ++ rest) pre = true.
Proof.
  induction pre as [|x pre IH]; [destruct rest; reflexivity|].
  simpl. rewrite IH, andb_true_r. apply Byte.byte_dec_lb. reflexivity.
Qed.

Section KeyLayout.

Variable SortedSetSeparator : bytes.

Lemma SetKeyScore_BuildSetKey (key set : bytes) (score : float64) (index : option uint64) :
  0 <= score < 2 ^ 64 ->
  SetKeyScore SortedSetSeparator
    (BuildSetKey SortedSetSeparator key set score index) set = score.
Proof.
  intros Hs. unfold SetKeyScore, BuildSetKey.
  rewrite app_assoc, skipn_app_exact by apply length_app.
  apply decodeScore_encodeScore. exact Hs.
Qed.

Lemma BuildSetKey_separator (key set : bytes) (score : float64) (index : option uint64) :
  HasPrefix (BuildSetKey SortedSetSeparator key set score index) SortedSetSeparator = true.
Proof.
  apply HasPrefix_app.
Qed.

End KeyLayout.

(** *** [getSortedSetKeyVal] and [ZAdd] *)

Section MoreZAdd.

Variable SortedSetSeparator : bytes.
Variable S : Store.

Local Abbreviation keyVal := (getSortedSetKeyVal SortedSetSeparator S).
Local Abbreviation zadd := (ZAdd SortedSetSeparator S).
Local Abbreviation buildKey := (BuildSetKey SortedSetSeparator).
Local Abbreviation startKey := (ZScan_offsetKey SortedSetSeparator).

(** X1.  [skipPersistenceCheck] only switches off the check of a pinned
    reference: with a pin and the check skipped the pair is built without
    the store being asked, whatever the transaction id; without a pin the
    flag changes nothing, the member key is still looked up and a failed
    lookup still fails the call. *)
Theorem getSortedSetKeyVal_skipPersistenceCheck (d : St S)
    (set key : bytes) (score : float64) (optScore : option float64) (id : uint64) :
  keyVal d (mkZAddOptions set (Some score) key (Some id)) true
  = Ret (buildKey key set score (Some id), WrapIndexReference key (Some id))
  /\ keyVal d (mkZAddOptions set optScore key None) true
     = keyVal d (mkZAddOptions set optScore key None) false
  /\ (forall e, Get S d key = Fail e ->
                keyVal d (mkZAddOptions set optScore key None) true = Err e).
Proof.
  split; [reflexivity|]. split; [reflexivity|].
  intros e He. unfold getSortedSetKeyVal. cbn [zaIndex zaKey]. rewrite He. reflexivity.
Qed.

(** X2.  A request whose [Score] pointer is nil never adds anything: the
    store is left as it was and no root is returned; when the check of the
    member key passes, the call panics on the nil pointer. *)
Theorem ZAdd_nil_score (d : St S) (zaddOpts : ZAddOptions) :
  zaScore zaddOpts = None ->
  snd (zadd d zaddOpts) = d
  /\ (forall root, fst (zadd d zaddOpts) <> Ret root)
  /\ ((exists id tx v, zaIndex zaddOpts = Some id /\ ReadTx S d id = OK tx
                       /\ ReadValue S d tx (zaKey zaddOpts) = OK v)
      \/ (exists i, zaIndex zaddOpts = None /\ Get S d (zaKey zaddOpts) = OK i
                    /\ itKey i = zaKey zaddOpts) ->
      zadd d zaddOpts = (Panic, d)).
Proof.
  intros Hs. unfold ZAdd.
  destruct (keyVal d zaddOpts false) as [[ik v]|e|] eqn:Hg.
  - destruct (getSortedSetKeyVal_Ret _ _ d zaddOpts ik v Hg) as (score & Hsc & _).
    congruence.
  - cbn [fst snd]. split; [reflexivity|]. split; [discriminate|].
    intros [(id & tx & v & Hi & Htx & Hv)|(i & Hi & Hget & Hk)];
      unfold getSortedSetKeyVal in Hg; rewrite Hi in Hg; cbn [bind try] in Hg.
    + rewrite Htx in Hg. cbn [bind try] in Hg. rewrite Hv in Hg. cbn [bind] in Hg.
      rewrite Hs in Hg. discriminate.
    + rewrite Hget in Hg. cbn [bind try] in Hg. rewrite Hk in Hg.
      rewrite (proj2 (Compare_eq_iff _ _) eq_refl) in Hg. cbn [bind] in Hg.
      rewrite Hs in Hg. discriminate.
  - cbn [fst snd]. split; [reflexivity|]. split; [discriminate|reflexivity].
Qed.

(** X3.  [ZAdd] writes at most once: the store after the call is the
    store before it, or the store after the commit of the single pair made
    of the composite key and the reference of the request.  When [ZAdd]
    panics or returns an error that [fmt.Errorf] did not build, the store
    is the one before the call. *)
Theorem ZAdd_commits_at_most_once (d : St S) (zaddOpts : ZAddOptions) :
  (snd (zadd d zaddOpts) = d
   \/ exists score,
        zaScore zaddOpts = Some score
        /\ snd (zadd d zaddOpts)
           = fst (Commit S d
                    [mkKV (buildKey (zaKey zaddOpts) (zaSet zaddOpts) score
                                    (zaIndex zaddOpts))
                          (WrapIndexReference (zaKey zaddOpts) (zaIndex zaddOpts))]))
  /\ match fst (zadd d zaddOpts) with
     | Ret _ => True
     | Err (Errorf _ _ _) => True
     | _ => snd (zadd d zaddOpts) = d
     end.
Proof.
  unfold ZAdd.
  destruct (keyVal d zaddOpts false) as [[ik v]|e|] eqn:Hg.
  - destruct (getSortedSetKeyVal_Ret _ _ d zaddOpts ik v Hg) as (score & Hsc & -> & ->).
    destruct (Commit S d _) as [d1 [[[id ts] alh]|e]] eqn:Hc; cbn [fst snd].
    + split; [|exact I]. right. exists score. rewrite Hc. auto.
    + split; [|exact I]. right. exists score. rewrite Hc. auto.
  - cbn [fst snd]. split; [left; reflexivity|]. destruct e; auto.
  - cbn [fst snd]. split; [left|]; reflexivity.
Qed.

Lemma getSortedSetKeyVal_Ret_any (d : St S) (zaddOpts : ZAddOptions) (skip : bool)
    (ik v : bytes) :
  keyVal d zaddOpts skip = Ret (ik, v) ->
  exists score,
    zaScore zaddOpts = Some score
    /\ ik = buildKey (zaKey zaddOpts) (zaSet zaddOpts) score (zaIndex zaddOpts)
    /\ v = WrapIndexReference (zaKey zaddOpts) (zaIndex zaddOpts).
Proof.
  destruct skip; [|apply getSortedSetKeyVal_Ret].
  unfold getSortedSetKeyVal.
  destruct (zaIndex zaddOpts) as [id|]; cbn [negb bind try].
  - destruct (zaScore zaddOpts) as [score|]; cbn [deref bind]; [|discriminate].
    intros H. injection H as <- <-. eauto.
  - destruct (Get S d (zaKey zaddOpts)) as [i|e]; cbn [try bind]; [|discriminate].
    destruct (Compare (itKey i) (zaKey zaddOpts)); cbn [bind]; try discriminate.
    destruct (zaScore zaddOpts) as [score|]; cbn [deref bind]; [|discriminate].
    intros H. injection H as <- <-. eauto.
Qed.

(** X4.  The composite key [getSortedSetKeyVal] builds lies under the
    start key of a scan of its set: under the bare set prefix of a scan
    without bounds, and under the prefix of an ascending scan whose min, or
    of a descending scan whose max, is the score of the entry. *)
Theorem getSortedSetKeyVal_key_under_scan_prefix (d : St S) (zaddOpts : ZAddOptions)
    (skip : bool) (ik v : bytes) (limit : uint64) (reverse : bool)
    (bound : option float64) (score : float64) :
  keyVal d zaddOpts skip = Ret (ik, v) ->
  zaScore zaddOpts = Some score ->
  HasPrefix ik (startKey (mkZScanOptions (zaSet zaddOpts) None limit reverse None None))
  = true
  /\ HasPrefix ik (startKey (mkZScanOptions (zaSet zaddOpts) None limit false
                                            (Some score) bound)) = true
  /\ HasPrefix ik (startKey (mkZScanOptions (zaSet zaddOpts) None limit true
                                            bound (Some score))) = true.
Proof.
  intros Hg Hs.
  destruct (getSortedSetKeyVal_Ret_any d zaddOpts skip ik v Hg) as (score' & Hs' & -> & _).
  assert (score' = score) as -> by congruence.
  unfold BuildSetKey. repeat apply conj.
  - unfold ZScan_offsetKey, WrapSeparatorToSet. cbn. rewrite app_assoc. apply HasPrefix_app.
  - replace (startKey (mkZScanOptions (zaSet zaddOpts) None limit false (Some score) bound))
      with (SortedSetSeparator ++ zaSet zaddOpts ++ encodeScore score)
      by (destruct bound; reflexivity).
    rewrite (app_assoc (zaSet zaddOpts)), app_assoc. apply HasPrefix_app.
  - replace (startKey (mkZScanOptions (zaSet zaddOpts) None limit true bound (Some score)))
      with (SortedSetSeparator ++ zaSet zaddOpts ++ encodeScore score)
      by (destruct bound; reflexivity).
    rewrite (app_assoc (zaSet zaddOpts)), app_assoc. apply HasPrefix_app.
Qed.

End MoreZAdd.

(** *** [ZScan] *)

Section MoreZScan.

Variable SortedSetSeparator : bytes.
Variable S : Store.

Local Abbreviation keyVal := (getSortedSetKeyVal SortedSetSeparator S).
Local Abbreviation scan := (ZScan SortedSetSeparator S).
Local Abbreviation loop := (ZScan_loop SortedSetSeparator S).
Local Abbreviation entry := (ZScan_entry SortedSetSeparator S).
Local Abbreviation startKey := (ZScan_offsetKey SortedSetSeparator).
Local Abbreviation emit := (emitted SortedSetSeparator S).
Local Abbreviation pass := (passes SortedSetSeparator S).
Local Abbreviation scoreOf := (SetKeyScore SortedSetSeparator).

(** The bytes line 106 reads for a value pointer. *)
Local Abbreviation refValOf d ptr :=
  (fst (ReadValueAt S d (make (be_decode (firstn 4 ptr)))
          (int64_of_uint64 (be_decode (firstn 8 (skipn 4 ptr))))
          (copy_into 32 (skipn 12 ptr)))).

(** A turn on an entry whose key carries the separator and whose pointer
    is long enough: the reference is resolved, then the score of the key
    is held against the bounds. *)
Lemma ZScan_entry_with_separator (d : St S) (options : ZScanOptions)
    (k ptr : bytes) (ix : uint64) :
  HasPrefix k SortedSetSeparator = true ->
  (12 <= length ptr)%nat ->
  entry d options k ptr ix
  = (it <- ZScan_resolve S d (refValOf d ptr) ;;
     if match zsMin options with
        | Some min => f64_lt (scoreOf k (zsSet options)) min
        | None => false
        end
     then Ret None
     else if match zsMax options with
             | Some max => f64_gt (scoreOf k (zsSet options)) max
             | None => false
             end
          then Ret None
          else Ret (Some (Some (mkZItem it (scoreOf k (zsSet options)) k ix)))).
Proof.
  intros Hp Hl. unfold ZScan_entry, Uint32, Uint64, slice_from.
  assert (H4 : (length ptr <? 4)%nat = false) by (apply Nat.ltb_ge; lia).
  assert (H12 : (length ptr <? 12)%nat = false) by (apply Nat.ltb_ge; lia).
  assert (H8 : (length (skipn 4 ptr) <? 8)%nat = false)
    by (apply Nat.ltb_ge; rewrite length_skipn; lia).
  rewrite H4, H12. cbn [bind]. rewrite H8. cbn [bind].
  destruct (ReadValueAt S d _ _ _) as [refVal err]. rewrite Hp. cbn [fst].
  destruct (ZScan_resolve S d refVal) as [it| |]; cbn [bind deref]; try reflexivity.
  destruct (zsMin options) as [min|], (zsMax options) as [max|]; cbn [bind ziScore];
    repeat match goal with
           | |- context [if ?c then _ else _] => destruct c
           end; reflexivity.
Qed.

(** X5.  A value pointer of fewer than 12 bytes makes the turn panic,
    whatever the key and the request. *)
Theorem ZScan_entry_short_pointer (d : St S) (options : ZScanOptions)
    (k ptr : bytes) (ix : uint64) :
  (length ptr < 12)%nat -> entry d options k ptr ix = Panic.
Proof.
  intros Hl. unfold ZScan_entry, Uint32, Uint64, slice_from.
  destruct (Nat.ltb_spec (length ptr) 4) as [H4|H4]; [reflexivity|]. cbn [bind].
  assert (H8 : (length (skipn 4 ptr) <? 8)%nat = true)
    by (apply Nat.ltb_lt; rewrite length_skipn; lia).
  rewrite H8. reflexivity.
Qed.

(** X6.  What [ZAdd] stores for an unpinned member, [ZScan] reads back:
    on the entry made of the composite key and of a pointer to the
    reference, the turn looks the member key up as it is now, fails with
    the error of the lookup if it fails, and otherwise, if the score given
    to [ZAdd] is within the bounds, gives the item found with that score,
    the composite key as cursor and the index of the entry. *)
Theorem ZScan_entry_reads_back_unpinned (d d' : St S) (zaddOpts : ZAddOptions)
    (skip : bool) (ik v : bytes) (score : float64)
    (options : ZScanOptions) (ptr : bytes) (ix : uint64) :
  keyVal d zaddOpts skip = Ret (ik, v) ->
  zaIndex zaddOpts = None ->
  zaScore zaddOpts = Some score ->
  0 <= score < 2 ^ 64 ->
  Z.of_nat (length (zaKey zaddOpts)) < 2 ^ 64 ->
  zsSet options = zaSet zaddOpts ->
  (12 <= length ptr)%nat ->
  refValOf d' ptr = v ->
  entry d' options ik ptr ix
  = (it <- try (Get S d' (zaKey zaddOpts)) ;;
     if match zsMin options with Some min => f64_lt score min | None => false end
     then Ret None
     else if match zsMax options with Some max => f64_gt score max | None => false end
          then Ret None
          else Ret (Some (Some (mkZItem it score ik ix)))).
Proof.
  intros Hg Hi Hs Hr Hk Hset Hl Hv.
  destruct (getSortedSetKeyVal_Ret_any _ _ d zaddOpts skip ik v Hg)
    as (score' & Hs' & Hik & Hrv).
  assert (score' = score) as -> by congruence.
  rewrite ZScan_entry_with_separator
    by (try assumption; rewrite Hik; apply BuildSetKey_separator).
  rewrite Hv, Hrv, Hi, Hset.
  replace (scoreOf ik (zaSet zaddOpts)) with score
    by (rewrite Hik; symmetry; apply SetKeyScore_BuildSetKey; assumption).
  unfold ZScan_resolve. rewrite Unwrap_Wrap_unpinned by assumption.
  reflexivity.
Qed.

(** X7.  What [ZAdd] stores for a pinned member, [ZScan] reads back at the
    pinned transaction: the turn reads that transaction and the member
    key's value in it, fails with the error of either read, and never
    looks the current value up; the item carries the member key, that
    value and the pinned transaction id. *)
Theorem ZScan_entry_reads_back_pinned (d d' : St S) (zaddOpts : ZAddOptions)
    (skip : bool) (ik v : bytes) (score : float64) (pin : uint64)
    (options : ZScanOptions) (ptr : bytes) (ix : uint64) :
  keyVal d zaddOpts skip = Ret (ik, v) ->
  zaIndex zaddOpts = Some pin ->
  zaScore zaddOpts = Some score ->
  0 <= score < 2 ^ 64 ->
  0 <= pin < 2 ^ 64 ->
  Z.of_nat (length (zaKey zaddOpts)) < 2 ^ 64 ->
  zsSet options = zaSet zaddOpts ->
  (12 <= length ptr)%nat ->
  refValOf d' ptr = v ->
  entry d' options ik ptr ix
  = (tx <- try (ReadTx S d' pin) ;;
     val <- try (ReadValue S d' tx (zaKey zaddOpts)) ;;
     if match zsMin options with Some min => f64_lt score min | None => false end
     then Ret None
     else if match zsMax options with Some max => f64_gt score max | None => false end
          then Ret None
          else Ret (Some (Some (mkZItem (mkItem (zaKey zaddOpts) val pin) score ik ix)))).
Proof.
  intros Hg Hi Hs Hr Hp Hk Hset Hl Hv.
  destruct (getSortedSetKeyVal_Ret_any _ _ d zaddOpts skip ik v Hg)
    as (score' & Hs' & Hik & Hrv).
  assert (score' = score) as -> by congruence.
  rewrite ZScan_entry_with_separator
    by (try assumption; rewrite Hik; apply BuildSetKey_separator).
  rewrite Hv, Hrv, Hi, Hset.
  replace (scoreOf ik (zaSet zaddOpts)) with score
    by (rewrite Hik; symmetry; apply SetKeyScore_BuildSetKey; assumption).
  unfold ZScan_resolve. rewrite Unwrap_Wrap_pinned by assumption. cbn [Byte.eqb].
  destruct (ReadTx S d' pin) as [tx|e]; cbn [try bind]; [|reflexivity].
  destruct (ReadValue S d' tx (zaKey zaddOpts)) as [val|e]; reflexivity.
Qed.

Lemma f64_lt_irrefl (s : float64) : f64_lt s s = false.
Proof.
  unfold f64_lt. rewrite Z.ltb_irrefl. apply andb_false_r.
Qed.

Lemma f64_lt_NaN (a c : float64) :
  f64_isNaN a = true \/ f64_isNaN c = true -> f64_lt a c = false.
Proof.
  unfold f64_lt. intros [-> | ->]; simpl; [reflexivity|].
  rewrite andb_false_r. reflexivity.
Qed.

(** X8.  The bounds are inclusive, and NaN is never filtered: an entry
    whose reference resolves is handed on when its score equals the min
    and the max of the request, and when its score is NaN whatever the
    bounds; a bound that is NaN leaves every entry in. *)
Theorem ZScan_entry_bounds_inclusive (d : St S)
    (set : bytes) (offset : option bytes) (limit : uint64) (reverse : bool)
    (min max : option float64) (k ptr : bytes) (ix : uint64) (it : Item) :
  HasPrefix k SortedSetSeparator = true ->
  (12 <= length ptr)%nat ->
  ZScan_resolve S d (refValOf d ptr) = Ret it ->
  let s := scoreOf k set in
  let kept := Ret (Some (Some (mkZItem it s k ix))) in
  entry d (mkZScanOptions set offset limit reverse (Some s) (Some s)) k ptr ix = kept
  /\ (f64_isNaN s = true ->
      entry d (mkZScanOptions set offset limit reverse min max) k ptr ix = kept)
  /\ (forall nan, f64_isNaN nan = true ->
      entry d (mkZScanOptions set offset limit reverse (Some nan) (Some nan)) k ptr ix
      = kept).
Proof.
  intros Hp Hl Hres s kept. subst kept.
  repeat apply conj; [|intros Hn|intros nan Hn];
    rewrite ZScan_entry_with_separator by assumption; rewrite Hres;
    cbn [bind zsMin zsMax zsSet]; fold s; unfold f64_gt.
  - rewrite f64_lt_irrefl. reflexivity.
  - destruct min as [m|], max as [m'|];
      rewrite ?(f64_lt_NaN s) by auto; rewrite ?(f64_lt_NaN _ s) by auto; reflexivity.
  - rewrite (f64_lt_NaN s nan), (f64_lt_NaN nan s) by auto. reflexivity.
Qed.

(** What the loop returns begins with what it had collected. *)
Lemma ZScan_loop_extends (d : St S) (options : ZScanOptions) (limit : uint64)
    (reader : reads) :
  forall items i out,
    loop d options limit reader items i = Ret out ->
    exists more, out = items ++ more.
Proof.
  induction reader as [|[[[k v] ix]|e] rest IH]; intros items i out;
    cbn [ZScan_loop].
  - intros H. injection H as <-. exists []. symmetry. apply app_nil_r.
  - destruct (entry d options k v ix) as [[z|]| |]; cbn [bind]; try discriminate.
    + destruct (wrap64 (i + 1) =? limit).
      * intros H. injection H as <-. eauto.
      * intros H. destruct (IH _ _ _ H) as (more & ->).
        rewrite <- app_assoc. eauto.
    + apply IH.
  - destruct (is_ErrNoMoreEntries e); [|discriminate].
    intros H. injection H as <-. exists []. symmetry. apply app_nil_r.
Qed.

Lemma ZScan_loop_limit_prefix (d : St S)
    (set : bytes) (offset : option bytes) (reverse : bool) (min max : option float64)
    (L : uint64) (reader : reads) :
  L < 2 ^ 64 ->
  forall items i all,
    i = Z.of_nat (length items) ->
    Z.of_nat (length items) + Z.of_nat (length reader) < MaxUint64 ->
    Z.of_nat (length items) < L ->
    loop d (mkZScanOptions set offset 0 reverse min max) MaxUint64 reader items i = Ret all ->
    loop d (mkZScanOptions set offset L reverse min max) L reader items i
    = Ret (firstn (Z.to_nat L) all).
Proof.
  intros HL. induction reader as [|[[[k v] ix]|e] rest IH];
    intros items i all Hi Hlen Hlt; cbn [ZScan_loop].
  - intros H. injection H as <-. rewrite firstn_all2 by lia. reflexivity.
  - change (entry d (mkZScanOptions set offset L reverse min max) k v ix)
      with (entry d (mkZScanOptions set offset 0 reverse min max) k v ix).
    destruct (entry d (mkZScanOptions set offset 0 reverse min max) k v ix)
      as [[z|]| |]; cbn [bind]; try discriminate.
    + cbn [length] in Hlen. rewrite wrap64_small by (unfold MaxUint64 in Hlen; lia).
      destruct (Z.eqb_spec (i + 1) MaxUint64) as [E|E]; [lia|].
      intros H. destruct (Z.eqb_spec (i + 1) L) as [E'|E'].
      * destruct (ZScan_loop_extends _ _ _ _ _ _ _ H) as (more & ->).
        rewrite firstn_app_exact by (rewrite length_app; simpl; lia). reflexivity.
      * apply IH; try assumption; rewrite ?length_app; simpl; lia.
    + cbn [length] in Hlen. apply IH; try assumption. lia.
  - destruct (is_ErrNoMoreEntries e); [|discriminate].
    intros H. injection H as <-. rewrite firstn_all2 by lia. reflexivity.
Qed.

(** X9.  A limit cuts the result and nothing else: when the scan without
    limit returns a list, the same request with limit [L > 0] returns the
    first [L] items of that list. *)
Theorem ZScan_limit_is_prefix (d : St S)
    (set : bytes) (offset : option bytes) (reverse : bool) (min max : option float64)
    (L : uint64) (snapshot : Snap S) (reader : reads) (all : list (option ZItem)) :
  0 < L < 2 ^ 64 ->
  Snapshot S d = OK snapshot ->
  Reader S snapshot
    (ZScan_readerSpec (mkZScanOptions set offset 0 reverse min max)
       (startKey (mkZScanOptions set offset 0 reverse min max))) = OK reader ->
  Z.of_nat (length reader) < 2 ^ 64 - 1 ->
  scan d (mkZScanOptions set offset 0 reverse min max) = Ret (mkZItemList all) ->
  scan d (mkZScanOptions set offset L reverse min max)
  = Ret (mkZItemList (firstn (Z.to_nat L) all)).
Proof.
  intros HL Hsnap Hreader Hlen. unfold ZScan, ZScan_from.
  change (startKey (mkZScanOptions set offset L reverse min max))
    with (startKey (mkZScanOptions set offset 0 reverse min max)).
  change (ZScan_readerSpec (mkZScanOptions set offset L reverse min max))
    with (ZScan_readerSpec (mkZScanOptions set offset 0 reverse min max)).
  rewrite Hsnap. cbn [try bind]. rewrite Hreader. cbn [try bind].
  replace (ZScan_limit (mkZScanOptions set offset 0 reverse min max)) with MaxUint64
    by reflexivity.
  replace (ZScan_limit (mkZScanOptions set offset L reverse min max)) with L
    by (unfold ZScan_limit; cbn [zsLimit];
        destruct (Z.eqb_spec L 0); [lia|reflexivity]).
  destruct (loop d (mkZScanOptions set offset 0 reverse min max) MaxUint64 reader [] 0)
    as [out| |] eqn:E; cbn [bind]; try discriminate.
  intros H. injection H as <-.
  rewrite (ZScan_loop_limit_prefix d set offset reverse min max L reader) with (all := out);
    try reflexivity; try assumption; simpl; unfold MaxUint64; lia.
Qed.

(** X10.  A failure on the way fails the whole scan: when the reader
    returns an error other than the end of the sequence, or a turn returns
    an error or panics, before the limit is reached, [ZScan] returns that
    error (or panics) and none of the items collected so far. *)
Theorem ZScan_fails_midway (d : St S) (options : ZScanOptions)
    (snapshot : Snap S) (reader r rest : reads) (x : result (bytes * bytes * uint64)) :
  Snapshot S d = OK snapshot ->
  Reader S snapshot (ZScan_readerSpec options (startKey options)) = OK reader ->
  0 <= zsLimit options < 2 ^ 64 ->
  reader = r ++ x :: rest ->
  Forall (pass d options) r ->
  Z.of_nat (length (flat_map (emit d options) r)) < ZScan_limit options ->
  (forall e, x = Fail e -> is_ErrNoMoreEntries e = false -> scan d options = Err e)
  /\ (forall k v ix e, x = OK (k, v, ix) -> entry d options k v ix = Err e ->
                       scan d options = Err e)
  /\ (forall k v ix, x = OK (k, v, ix) -> entry d options k v ix = Panic ->
                     scan d options = Panic).
Proof.
  intros Hsnap Hreader HL -> Hr Hn.
  assert (Hlim : ZScan_limit options < 2 ^ 64).
  { unfold ZScan_limit, MaxUint64. destruct (zsLimit options =? 0); lia. }
  assert (Hscan : scan d options
                  = (items <- loop d options (ZScan_limit options) (x :: rest)
                                (flat_map (emit d options) r)
                                (Z.of_nat (length (flat_map (emit d options) r))) ;;
                     Ret (mkZItemList items))).
  { unfold ZScan, ZScan_from. rewrite Hsnap. cbn [try bind].
    rewrite Hreader. cbn [try bind].
    rewrite (ZScan_loop_through _ _ d options _ (x :: rest) r Hlim Hr [] 0)
      by (simpl; lia).
    reflexivity. }
  rewrite Hscan. repeat apply conj.
  - intros e -> He. cbn [ZScan_loop]. rewrite He. reflexivity.
  - intros k v ix e -> He. cbn [ZScan_loop]. rewrite He. reflexivity.
  - intros k v ix -> He. cbn [ZScan_loop]. rewrite He. reflexivity.
Qed.

End MoreZScan.

(** *** The further properties on the scenario *)

Section Scenario2Facts.

Import Scenario Scenario2.

(** Without a pin and with the check skipped, a key that does not exist
    still fails the call. *)
Lemma getSortedSetKeyVal_skipPersistenceCheck_witness :
  getSortedSetKeyVal separator st d0
    (mkZAddOptions (b "set1") (Some f3_0) (b "nokey") None) true
  = Err MemStore.ErrKeyNotFound.
Proof.
  apply (proj2 (proj2 (getSortedSetKeyVal_skipPersistenceCheck separator st d0
                         (b "set1") (b "nokey") f3_0 (Some f3_0) 1))).
  vm_compute. reflexivity.
Defined.

(** key1 exists, the score is nil. *)
Lemma ZAdd_nil_score_witness :
  ZAdd separator st d0 (mkZAddOptions (b "set1") None (b "key1") None) = (Panic, d0).
Proof.
  apply (proj2 (proj2 (ZAdd_nil_score separator st d0
                         (mkZAddOptions (b "set1") None (b "key1") None) eq_refl))).
  right. exists (mkItem (b "key1") (b "val1") 1).
  split; [reflexivity|]. split; [vm_compute; reflexivity|reflexivity].
Defined.

(** The key of the 3.0 entry and the start keys of three scans of set1. *)
Lemma getSortedSetKeyVal_key_under_scan_prefix_witness :
  HasPrefix ik_3_0
    (ZScan_offsetKey separator (mkZScanOptions (b "set1") None 0 true None None)) = true
  /\ HasPrefix ik_3_0
       (ZScan_offsetKey separator
          (mkZScanOptions (b "set1") None 0 false (Some f3_0) None)) = true
  /\ HasPrefix ik_3_0
       (ZScan_offsetKey separator
          (mkZScanOptions (b "set1") None 0 true None (Some f3_0))) = true.
Proof.
  apply (getSortedSetKeyVal_key_under_scan_prefix separator st d0 (zadd f3_0 "key1")
           false ik_3_0 ref_key1 0 true None f3_0).
  - vm_compute. reflexivity.
  - reflexivity.
Defined.

(** The pointer of the 3.0 entry cut to 11 bytes. *)
Lemma ZScan_entry_short_pointer_witness :
  ZScan_entry separator st d3 (zscan true None None) ik_3_0 short_pointer 4 = Panic.
Proof.
  apply ZScan_entry_short_pointer. vm_compute. lia.
Defined.

(** The 3.0 entry, added unpinned on [d0], read in [d3]. *)
Lemma ZScan_entry_reads_back_unpinned_witness :
  ZScan_entry separator st d3 (zscan true None None) ik_3_0 pointer_3_0 4
  = Ret (Some (Some (mkZItem (mkItem (b "key1") (b "val1") 1) f3_0 ik_3_0 4))).
Proof.
  etransitivity.
  - apply (ZScan_entry_reads_back_unpinned separator st d0 d3 (zadd f3_0 "key1") false
             ik_3_0 ref_key1 f3_0 (zscan true None None) pointer_3_0 4).
    + vm_compute. reflexivity.
    + reflexivity.
    + reflexivity.
    + unfold f3_0. lia.
    + simpl. lia.
    + reflexivity.
    + vm_compute. lia.
    + vm_compute. reflexivity.
  - vm_compute. reflexivity.
Defined.

(** The same entry pinned to transaction 1, read in [d1_pinned]. *)
Lemma ZScan_entry_reads_back_pinned_witness :
  ZScan_entry separator st d1_pinned (zscan true None None) ik_3_0_pinned pointer_pinned 4
  = Ret (Some (Some (mkZItem (mkItem (b "key1") (b "val1") 1) f3_0 ik_3_0_pinned 4))).
Proof.
  etransitivity.
  - apply (ZScan_entry_reads_back_pinned separator st d0 d1_pinned
             (zadd_pinned f3_0 "key1" 1) false
             ik_3_0_pinned ref_key1_pinned f3_0 1 (zscan true None None) pointer_pinned 4).
    + vm_compute. reflexivity.
    + reflexivity.
    + reflexivity.
    + unfold f3_0. lia.
    + lia.
    + simpl. lia.
    + reflexivity.
    + vm_compute. lia.
    + vm_compute. reflexivity.
  - vm_compute. reflexivity.
Defined.

(** The 3.0 entry under bounds 3.0 and under NaN bounds, and a key whose
    score is NaN under bounds 1.0 and 2.0. *)
Lemma ZScan_entry_bounds_inclusive_witness :
  ZScan_entry separator st d3 zscan_at_3_0 ik_3_0 pointer_3_0 4
  = Ret (Some (Some (mkZItem (mkItem (b "key1") (b "val1") 1) f3_0 ik_3_0 4)))
  /\ ZScan_entry separator st d3 zscan_bounded ik_nan pointer_3_0 4
     = Ret (Some (Some (mkZItem (mkItem (b "key1") (b "val1") 1) fNaN ik_nan 4)))
  /\ ZScan_entry separator st d3
       (mkZScanOptions (b "set1") None 0 true (Some fNaN) (Some fNaN)) ik_3_0 pointer_3_0 4
     = Ret (Some (Some (mkZItem (mkItem (b "key1") (b "val1") 1) f3_0 ik_3_0 4))).
Proof.
  assert (Hs : SetKeyScore separator ik_3_0 (b "set1") = f3_0) by (vm_compute; reflexivity).
  assert (Hn : SetKeyScore separator ik_nan (b "set1") = fNaN) by (vm_compute; reflexivity).
  assert (Hp : HasPrefix ik_3_0 separator = true) by (vm_compute; reflexivity).
  assert (Hpn : HasPrefix ik_nan separator = true) by (vm_compute; reflexivity).
  assert (Hl : (12 <= length pointer_3_0)%nat) by (vm_compute; lia).
  assert (Hr : ZScan_resolve st d3
                 (fst (ReadValueAt st d3 (make (be_decode (firstn 4 pointer_3_0)))
                         (int64_of_uint64 (be_decode (firstn 8 (skipn 4 pointer_3_0))))
                         (copy_into 32 (skipn 12 pointer_3_0))))
               = Ret (mkItem (b "key1") (b "val1") 1)) by (vm_compute; reflexivity).
  pose proof (ZScan_entry_bounds_inclusive separator st d3 (b "set1") None 0 true
                None None ik_3_0 pointer_3_0 4 _ Hp Hl Hr) as H3.
  pose proof (ZScan_entry_bounds_inclusive separator st d3 (b "set1") None 0 true
                (Some f1_0) (Some f2_0) ik_nan pointer_3_0 4 _ Hpn Hl Hr) as HN.
  cbv zeta in H3, HN. rewrite Hs in H3. rewrite Hn in HN.
  split; [exact (proj1 H3)|]. split.
  - apply (proj1 (proj2 HN)). vm_compute. reflexivity.
  - apply (proj2 (proj2 H3)). vm_compute. reflexivity.
Defined.

(** The set of the scenario scanned with limit 2. *)
Lemma ZScan_limit_is_prefix_witness :
  ZScan separator st d3 (mkZScanOptions (b "set1") None 2 true None None)
  = Ret (mkZItemList (firstn (Z.to_nat 2) [zitem3 0; zitem3 1; zitem3 2])).
Proof.
  apply (ZScan_limit_is_prefix separator st d3 (b "set1") None true None None 2
           (MemStore.index d3) reads3 [zitem3 0; zitem3 1; zitem3 2]).
  - lia.
  - reflexivity.
  - vm_compute. reflexivity.
  - vm_compute. reflexivity.
  - vm_compute. reflexivity.
Defined.

(** A reader that fails after one entry; an entry pinned to a transaction
    that does not exist, met after two others; a plain key met first by a
    scan with a min. *)
Lemma ZScan_fails_midway_witness :
  ZScan separator st_reader_breaks d3 (zscan true None None) = Err ioError
  /\ ZScan separator st d_dangling (zscan true None None) = Err MemStore.ErrTxNotFound
  /\ ZScan separator st d3 (zscan_plain (Some f1_0) None) = Panic.
Proof.
  split; [|split].
  - apply (proj1 (ZScan_fails_midway separator st_reader_breaks d3 (zscan true None None)
                    (MemStore.index d3)
                    ([OK (entry3 0)] ++ Fail ioError :: [OK (entry3 1); OK (entry3 2)])
                    [OK (entry3 0)] [OK (entry3 1); OK (entry3 2)] (Fail ioError)
                    eq_refl ltac:(vm_compute; reflexivity)
                    ltac:(cbn [zsLimit zscan]; lia) eq_refl
                    ltac:(constructor; [|constructor];
                          exists (fst (fst (entry3 0))), (snd (fst (entry3 0))),
                                 (snd (entry3 0)), (Some (zitem3 0));
                          split; vm_compute; reflexivity)
                    ltac:(vm_compute; reflexivity))
             ioError eq_refl eq_refl).
  - apply (proj1 (proj2
             (ZScan_fails_midway separator st d_dangling (zscan true None None)
                (MemStore.index d_dangling)
                ([OK (entry4 0); OK (entry4 1)] ++ OK (entry4 2) :: [OK (entry4 3)])
                [OK (entry4 0); OK (entry4 1)] [OK (entry4 3)] (OK (entry4 2))
                eq_refl ltac:(vm_compute; reflexivity)
                ltac:(cbn [zsLimit zscan]; lia) eq_refl
                ltac:(constructor; [|constructor; [|constructor]];
                      [ exists (fst (fst (entry4 0))), (snd (fst (entry4 0))),
                               (snd (entry4 0)), (Some (zitem3 0))
                      | exists (fst (fst (entry4 1))), (snd (fst (entry4 1))),
                               (snd (entry4 1)), (Some (zitem3 1)) ];
                      split; vm_compute; reflexivity)
                ltac:(vm_compute; reflexivity)))
             (fst (fst (entry4 2))) (snd (fst (entry4 2))) (snd (entry4 2))
             MemStore.ErrTxNotFound).
    + vm_compute. reflexivity.
    + vm_compute. reflexivity.
  - apply (proj2 (proj2
             (ZScan_fails_midway separator st d3 (zscan_plain (Some f1_0) None)
                (MemStore.index d3) ([] ++ OK entry_plain :: skipn 1 reads_plain)
                [] (skipn 1 reads_plain) (OK entry_plain)
                eq_refl ltac:(vm_compute; reflexivity)
                ltac:(cbn [zsLimit zscan_plain]; lia) eq_refl
                ltac:(constructor) ltac:(vm_compute; reflexivity)))
             (fst (fst entry_plain)) (snd (fst entry_plain)) (snd entry_plain)).
    + vm_compute. reflexivity.
    + vm_compute. reflexivity.
Defined.

(** The scan of the set with min 1.0 and max 2.0. *)
Lemma ZScan_range_guard_witness :
  Forall (fun zitem =>
            match zitem with
            | Some z =>
                (forall min, zsMin zscan_bounded = Some min -> f64_lt (ziScore z) min = false)
                /\ (forall max, zsMax zscan_bounded = Some max
                                -> f64_gt (ziScore z) max = false)
            | None => zsMin zscan_bounded = None /\ zsMax zscan_bounded = None
            end) (Items result_bounded)
  /\ map (option_map ziScore) (Items result_bounded) = [Some f2_0].
Proof.
  split.
  - apply (ZScan_range_guard separator st d3 zscan_bounded result_bounded).
    vm_compute. reflexivity.
  - vm_compute. reflexivity.
Defined.

(** The scan of the set without bounds and the reader it opens. *)
Lemma ZScan_follows_reader_witness :
  subsequence (item_keys (Items result_all)) (read_keys reads3).
Proof.
  apply (ZScan_follows_reader separator st d3 (zscan true None None) result_all
           (MemStore.index d3) reads3).
  - reflexivity.
  - vm_compute. reflexivity.
  - vm_compute. reflexivity.
Defined.

(** The plain entry key1 met by a scan without bounds. *)
Lemma ZScan_entry_without_separator_witness :
  ZScan_entry separator st d3 (zscan_plain None None) (b "key1") pointer_3_0 1
  = Ret (Some None).
Proof.
  apply (ZScan_entry_without_separator separator st d3 (zscan_plain None None)
           (b "key1") pointer_3_0 1).
  - vm_compute. reflexivity.
  - vm_compute. lia.
Defined.

End Scenario2Facts.
